(** * A hierarchical state machine engine: model and verification

    Shallow embedding of [stateMachine.h] and of the dispatch engine
    [stateMachine.c] (the revision with [getTransition], three-argument
    transition actions and transitive entry-state redirection).

    - A [struct state *] is an [option addr]: [None] is the null pointer,
      [Some a] the address of a state; the statically allocated state graph
      is a function from addresses to [state] records.
    - The pair ([transitions], [numTransitions]) of a state is the list of
      its first [numTransitions] array entries.
    - The four kinds of user callbacks are function pointers.  Guards are
      pure predicates of the condition word and the event.  Entry, exit and
      transition actions are opaque to the engine: each engine procedure
      returns the list of action invocations it performed, in order, with
      the arguments passed.
    - The two loops of [stateM_handleEvent] run on fuel; [None] is an
      exhausted fuel, that is, a loop that has not returned yet. *)

From Stdlib Require Import ZArith List Bool Lia PeanoNat.
Import ListNotations.

(** ** Data model *)

Definition addr := nat.
Definition fnptr := nat.
Definition word := Z.

(** [struct event]: [type] and the payload pointer [data] (here [payload],
    the name [data] being kept for the state's field). *)
Record event := mkEvent {
  type : Z;
  payload : word
}.

Record transition := mkTransition {
  eventType : Z;
  condition : word;
  guard : option (word -> event -> bool);
  action : option fnptr;
  nextState : option addr
}.

Record state := mkState {
  parentState : option addr;
  entryState : option addr;
  transitions : list transition;
  data : word;
  entryAction : option fnptr;
  exitAction : option fnptr
}.

Definition numTransitions (s : state) : nat := length (transitions s).

Record stateMachine := mkStateMachine {
  currentState : option addr;
  previousState : option addr;
  errorState : option addr
}.

Definition graph := addr -> state.

(** [enum stateM_handleEventRetVals], with the values the enumeration
    assigns ([stateM_errArg = -2], then counting up). *)
Inductive stateM_handleEventRetVals : Set :=
| stateM_errArg
| stateM_errorStateReached
| stateM_stateChanged
| stateM_stateLoopSelf
| stateM_noStateChange
| stateM_finalStateReached.

Definition retval_code (r : stateM_handleEventRetVals) : Z :=
  match r with
  | stateM_errArg => -2
  | stateM_errorStateReached => -1
  | stateM_stateChanged => 0
  | stateM_stateLoopSelf => 1
  | stateM_noStateChange => 2
  | stateM_finalStateReached => 3
  end.

(** An invocation of a user action, with the arguments of the call. *)
Inductive call : Type :=
| ExitCall (f : fnptr) (stateData : word) (ev : event)
| ActionCall (f : fnptr) (oldStateData : word) (ev : event) (newStateData : word)
| EntryCall (f : fnptr) (stateData : word) (ev : event).

(** The result of reading through a pointer that may be null. *)
Inductive defined (A : Type) : Type :=
| Def (a : A)
| Undef.
Arguments Def {A} a.
Arguments Undef {A}.

Definition ptr_eqb (p q : option addr) : bool :=
  match p, q with
  | Some a, Some b => a =? b
  | None, None => true
  | _, _ => false
  end.

(** ** The engine *)

(** [if ( s->exitAction ) s->exitAction( s->data, event )] and its two
    siblings. *)
Definition call_exit (s : state) (ev : event) : list call :=
  match exitAction s with
  | Some f => [ExitCall f (data s) ev]
  | None => []
  end.

Definition call_entry (s : state) (ev : event) : list call :=
  match entryAction s with
  | Some f => [EntryCall f (data s) ev]
  | None => []
  end.

Definition call_action (t : transition) (old : word) (ev : event) (new : word)
  : list call :=
  match action t with
  | Some f => [ActionCall f old ev new]
  | None => []
  end.

Definition stateM_init (fsm : option stateMachine)
  (initialState errState : option addr) : option stateMachine * list call :=
  match fsm with
  | None => (None, [])
  | Some _ =>
      (Some {| currentState := initialState;
               previousState := None;
               errorState := errState |}, [])
  end.

Definition goToErrorState (g : graph) (fsm : stateMachine) (ev : event)
  : stateMachine * list call :=
  let fsm' := {| currentState := errorState fsm;
                 previousState := currentState fsm;
                 errorState := errorState fsm |} in
  (fsm', match currentState fsm' with
         | Some e => call_entry (g e) ev
         | None => []
         end).

(** The [for] loop of [getTransition] over the transition array. *)
Fixpoint scanTransitions (ts : list transition) (ev : event)
  : option transition :=
  match ts with
  | [] => None
  | t :: rest =>
      if (eventType t =? type ev)%Z then
        match guard t with
        | None => Some t
        | Some gd =>
            if gd (condition t) ev then Some t else scanTransitions rest ev
        end
      else scanTransitions rest ev
  end.

Definition getTransition (st : state) (ev : event) : option transition :=
  scanTransitions (transitions st) ev.

(** [while ( nextState->entryState ) nextState = nextState->entryState;] *)
Fixpoint stepDown (fuel : nat) (g : graph) (s : addr) : option addr :=
  match fuel with
  | O => None
  | S fuel' =>
      match entryState (g s) with
      | Some e => stepDown fuel' g e
      | None => Some s
      end
  end.

(** The body of the [do] loop once [getTransition] has returned a
    transition; [cur] is the state [fsm->currentState] points to. *)
Definition takeTransition (fuel : nat) (g : graph) (fsm : stateMachine)
  (cur : addr) (ev : event) (t : transition)
  : option (stateM_handleEventRetVals * stateMachine * list call) :=
  match nextState t with
  | None =>
      let (fsm', tr) := goToErrorState g fsm ev in
      Some (stateM_errorStateReached, fsm', tr)
  | Some n =>
      match stepDown fuel g n with
      | None => None
      | Some landing =>
          let leaves := negb (landing =? cur) in
          let tr :=
            (if leaves then call_exit (g cur) ev else [])
            ++ call_action t (data (g cur)) ev (data (g landing))
            ++ (if leaves then call_entry (g landing) ev else []) in
          let fsm' := {| currentState := Some landing;
                         previousState := currentState fsm;
                         errorState := errorState fsm |} in
          let rv :=
            if ptr_eqb (currentState fsm') (previousState fsm')
            then stateM_stateLoopSelf
            else if ptr_eqb (currentState fsm') (errorState fsm')
            then stateM_errorStateReached
            else if numTransitions (g landing) =? 0
            then stateM_finalStateReached
            else stateM_stateChanged in
          Some (rv, fsm', tr)
      end
  end.

(** The [do ... while ( nextState )] loop; [s] is the loop variable
    [nextState] while it walks up the parents. *)
Fixpoint dispatch (fuel : nat) (g : graph) (fsm : stateMachine) (cur : addr)
  (ev : event) (s : addr)
  : option (stateM_handleEventRetVals * stateMachine * list call) :=
  match fuel with
  | O => None
  | S fuel' =>
      match getTransition (g s) ev with
      | None =>
          match parentState (g s) with
          | Some p => dispatch fuel' g fsm cur ev p
          | None => Some (stateM_noStateChange, fsm, [])
          end
      | Some t => takeTransition fuel' g fsm cur ev t
      end
  end.

Definition stateM_handleEvent (fuel : nat) (g : graph)
  (fsm : option stateMachine) (ev : option event)
  : option (stateM_handleEventRetVals * option stateMachine * list call) :=
  match fsm, ev with
  | Some m, Some e =>
      match currentState m with
      | None =>
          let (m', tr) := goToErrorState g m e in
          Some (stateM_errorStateReached, Some m', tr)
      | Some cur =>
          if numTransitions (g cur) =? 0
          then Some (stateM_noStateChange, Some m, [])
          else
            match dispatch fuel g m cur e cur with
            | Some (rv, m', tr) => Some (rv, Some m', tr)
            | None => None
            end
      end
  | _, _ => Some (stateM_errArg, fsm, [])
  end.

Definition stateM_currentState (fsm : option stateMachine) : option addr :=
  match fsm with
  | None => None
  | Some m => currentState m
  end.

Definition stateM_previousState (fsm : option stateMachine) : option addr :=
  match fsm with
  | None => None
  | Some m => previousState m
  end.

(** [stateMachine->currentState->numTransitions == 0]: the read goes
    through [currentState] unchecked. *)
Definition stateM_stopped (g : graph) (fsm : option stateMachine)
  : defined bool :=
  match fsm with
  | None => Def true
  | Some m =>
      match currentState m with
      | None => Undef
      | Some cur => Def (numTransitions (g cur) =? 0)
      end
  end.

(** The caller's loop of the test programs: feed the events one by one,
    collecting the return values. *)
Fixpoint feed (fuel : nat) (g : graph) (fsm : option stateMachine)
  (evs : list event)
  : option (list stateM_handleEventRetVals * option stateMachine * list call) :=
  match evs with
  | [] => Some ([], fsm, [])
  | e :: rest =>
      match stateM_handleEvent fuel g fsm (Some e) with
      | None => None
      | Some (rv, fsm', tr) =>
          match feed fuel g fsm' rest with
          | None => None
          | Some (rvs, fsm'', tr') => Some (rv :: rvs, fsm'', tr ++ tr')
          end
      end
  end.

(** ** Specification vocabulary *)

(** A candidate matches: its event type is the event's, and no guard is
    attached or the guard holds of the condition value and the event. *)
Definition matches (t : transition) (ev : event) : bool :=
  (eventType t =? type ev)%Z
  && match guard t with
     | None => true
     | Some gd => gd (condition t) ev
     end.

(** Transition resolution in the words of the specification: the first
    matching transition in sequence order. *)
Definition resolve_spec (st : state) (ev : event) : option transition :=
  find (fun t => matches t ev) (transitions st).

(** Bubbling: resolution at [s], then at its parent, and so on, until a
    transition is found ([Some t]) or the ancestors are exhausted ([None]). *)
Inductive resolves (g : graph) (ev : event)
  : addr -> option transition -> Prop :=
| resolves_here s t :
    getTransition (g s) ev = Some t ->
    resolves g ev s (Some t)
| resolves_root s :
    getTransition (g s) ev = None ->
    parentState (g s) = None ->
    resolves g ev s None
| resolves_up s p r :
    getTransition (g s) ev = None ->
    parentState (g s) = Some p ->
    resolves g ev p r ->
    resolves g ev s r.

(** The parent links from [s] reach a state without parent. *)
Inductive rooted (g : graph) : addr -> Prop :=
| rooted_top s : parentState (g s) = None -> rooted g s
| rooted_child s p : parentState (g s) = Some p -> rooted g p -> rooted g s.

(** Entry redirection: following entry-state links from [s] ends in the
    state [l], which declares no entry state. *)
Inductive lands (g : graph) : addr -> addr -> Prop :=
| lands_here s : entryState (g s) = None -> lands g s s
| lands_down s e l :
    entryState (g s) = Some e -> lands g e l -> lands g s l.

(** [stateM_handleEvent] acts on the resolution [r] found from the current
    state [c]: after the fuel spent on bubbling, its result is that of
    taking the transition, or the no-op when there is none. *)
Definition acts_on (g : graph) (m : stateMachine) (ev : event) (c : addr)
  (r : option transition) : Prop :=
  exists k, forall fuel,
    stateM_handleEvent (k + fuel) g (Some m) (Some ev) =
    match r with
    | None => Some (stateM_noStateChange, Some m, [])
    | Some t =>
        match takeTransition fuel g m c ev t with
        | Some (rv, m', tr) => Some (rv, Some m', tr)
        | None => None
        end
    end.

(** Result classification of a committed transition from [c] to the
    landing state [l]. *)
Definition classify (g : graph) (m : stateMachine) (c l : addr)
  : stateM_handleEventRetVals :=
  if l =? c then stateM_stateLoopSelf
  else if ptr_eqb (Some l) (errorState m) then stateM_errorStateReached
  else if numTransitions (g l) =? 0 then stateM_finalStateReached
  else stateM_stateChanged.

(** The actions of a committed transition [t] from [c] to [l], in order:
    exit of [c], action of [t], entry of [l]; a self-loop runs the action
    only. *)
Definition commit_calls (g : graph) (c l : addr) (ev : event)
  (t : transition) : list call :=
  (if l =? c then [] else call_exit (g c) ev)
  ++ call_action t (data (g c)) ev (data (g l))
  ++ (if l =? c then [] else call_entry (g l) ev).

(** The machine after a committed transition from [c] to [l]. *)
Definition moved (m : stateMachine) (c l : addr) : stateMachine :=
  {| currentState := Some l;
     previousState := Some c;
     errorState := errorState m |}.

(** [n] successive calls of [stateM_init] with the same arguments. *)
Fixpoint init_times (n : nat) (fsm : option stateMachine)
  (initialState errState : option addr) : option stateMachine * list call :=
  match n with
  | O => (fsm, [])
  | S n' =>
      let (fsm', tr) := stateM_init fsm initialState errState in
      let (fsm'', tr') := init_times n' fsm' initialState errState in
      (fsm'', tr ++ tr')
  end.

Definition is_entry (c : call) : bool :=
  match c with EntryCall _ _ _ => true | _ => false end.

Definition is_exit (c : call) : bool :=
  match c with ExitCall _ _ _ => true | _ => false end.

(** ** The nested test machine

    The state graph of the repository's nesting test: states 1 to 6, the
    group states 9, 10 and 11, and the error state at address 0.  The
    state data is the state's name, here its number; the event payload is
    the character the guard compares with the condition. *)
Module NestedTest.

Definition Event_dummy : Z := 0%Z.
Definition entryFn : fnptr := 1.
Definition exitFn : fnptr := 2.
Definition transFn : fnptr := 3.

Definition guardFn (cond : word) (ev : event) : bool :=
  (cond =? payload ev)%Z.

Definition on (c : Z) (target : addr) : transition :=
  mkTransition Event_dummy c (Some guardFn) (Some transFn) (Some target).

Definition always (target : addr) : transition :=
  mkTransition Event_dummy 0%Z None (Some transFn) (Some target).

Definition node (name : Z) (parent entry : option addr)
  (ts : list transition) : state :=
  mkState parent entry ts name (Some entryFn) (Some exitFn).

Definition ch_a : Z := 97%Z.
Definition ch_b : Z := 98%Z.
Definition ch_d : Z := 100%Z.
Definition ch_e : Z := 101%Z.
Definition ch_f : Z := 102%Z.
Definition ch_g : Z := 103%Z.
Definition ch_h : Z := 104%Z.
Definition ch_i : Z := 105%Z.
Definition ch_j : Z := 106%Z.
Definition ch_k : Z := 107%Z.
Definition ch_star : Z := 42%Z.

Definition sE : addr := 0.

Definition states : graph := fun a =>
  match a with
  | 1 => node 1%Z (Some 9) None [on ch_d 3]
  | 2 => node 2%Z None None [on ch_b 1]
  | 3 => node 3%Z (Some 10) None [on ch_e 11]
  | 4 => node 4%Z (Some 11) None [on ch_h 5; on ch_j 9]
  | 5 => node 5%Z (Some 11) None [always 10]
  | 6 => node 6%Z None None []
  | 9 => node 9%Z None (Some 4) [on ch_a 3]
  | 10 => node 10%Z (Some 9) (Some 9) [on ch_f 2; on ch_i 6]
  | 11 => node 11%Z (Some 10) (Some 5) [on ch_g 2]
  | _ => mkState None None [] (-1)%Z (Some entryFn) None
  end.

Definition key (c : Z) : event := mkEvent Event_dummy c.

Definition machine_at (s : addr) : stateMachine :=
  mkStateMachine (Some s) None (Some sE).

Definition fsm0 : option stateMachine :=
  fst (stateM_init (Some (mkStateMachine None None None)) (Some 1) (Some sE)).

Definition events : list event :=
  map key [ch_d; ch_e; ch_star; ch_j; ch_g; ch_b; ch_d; ch_e; ch_k; ch_h;
           ch_star; ch_f; ch_b; ch_a; ch_f; ch_b; ch_d; ch_i].

End NestedTest.

(** ** A small graph for boundary cases

    State 1 is a child of state 2 and has no transition of its own; state 2
    goes to the final state 3 on event type 0; state 4 loops to itself on
    event type 0; state 6 is a child of state 5, whose only transition
    declares no next state. *)
Module Boundary.

Definition go (target : addr) : transition :=
  mkTransition 0%Z 0%Z None (Some 30) (Some target).

(** A transition whose next state was left unset. *)
Definition broken : transition :=
  mkTransition 0%Z 0%Z None (Some 30) None.

(** A transition on another event type. *)
Definition other (target : addr) : transition :=
  mkTransition 1%Z 0%Z None None (Some target).

Definition states : graph := fun a =>
  match a with
  | 1 => mkState (Some 2) None [] 1%Z (Some 10) (Some 20)
  | 2 => mkState None None [go 3] 2%Z (Some 10) (Some 20)
  | 3 => mkState None None [] 3%Z (Some 10) (Some 20)
  | 4 => mkState None None [go 4] 4%Z (Some 10) (Some 20)
  | 5 => mkState None None [broken] 5%Z (Some 10) (Some 20)
  | 6 => mkState (Some 5) None [other 6] 6%Z (Some 10) (Some 20)
  | _ => mkState None None [] 0%Z None None
  end.

Definition ev0 : event := mkEvent 0%Z 0%Z.

(** In the final child state 1. *)
Definition in_child : stateMachine := mkStateMachine (Some 1) None (Some 0).

(** In state 2, with the final state 3 designated as the error state. *)
Definition error_is_target : stateMachine :=
  mkStateMachine (Some 2) None (Some 3).

(** In state 4, which is also the designated error state. *)
Definition in_error_loop : stateMachine :=
  mkStateMachine (Some 4) None (Some 4).

(** In state 6, below the misconfigured state 5; error state 3. *)
Definition below_broken : stateMachine :=
  mkStateMachine (Some 6) None (Some 3).

End Boundary.

(** ** Outcomes of a call

    The five ways a call of [stateM_handleEvent] on a present machine and
    event comes to its [return]: the fallback for an absent current
    state, the early return in a state without transitions, the end of
    the ancestors without match, a matched transition without next state,
    and a committed transition. *)
Inductive outcome (g : graph) (m : stateMachine) (ev : event)
  : stateM_handleEventRetVals -> stateMachine -> list call -> Prop :=
| outcome_absent :
    currentState m = None ->
    outcome g m ev stateM_errorStateReached
      (fst (goToErrorState g m ev)) (snd (goToErrorState g m ev))
| outcome_final c :
    currentState m = Some c ->
    numTransitions (g c) = 0 ->
    outcome g m ev stateM_noStateChange m []
| outcome_unmatched c :
    currentState m = Some c ->
    numTransitions (g c) <> 0 ->
    resolves g ev c None ->
    outcome g m ev stateM_noStateChange m []
| outcome_unset c t :
    currentState m = Some c ->
    numTransitions (g c) <> 0 ->
    resolves g ev c (Some t) ->
    nextState t = None ->
    outcome g m ev stateM_errorStateReached
      (fst (goToErrorState g m ev)) (snd (goToErrorState g m ev))
| outcome_commit c t n l :
    currentState m = Some c ->
    numTransitions (g c) <> 0 ->
    resolves g ev c (Some t) ->
    nextState t = Some n ->
    lands g n l ->
    outcome g m ev (classify g m c l) (moved m c l)
      (commit_calls g c l ev t).

(** A graph on which both loops end: the parent links of every state
    reach a root, and the entry links of every state reach a state
    without entry state. *)
Definition well_founded_graph (g : graph) : Prop :=
  (forall s, rooted g s) /\ (forall s, exists l, lands g s l).

(** The machine has a current state and a designated error state. *)
Definition anchored (m : stateMachine) : Prop :=
  (exists c, currentState m = Some c) /\ (exists e, errorState m = Some e).

(** No current state of the machine declares an entry state. *)
Definition in_plain_state (g : graph) (m : stateMachine) : Prop :=
  forall c, currentState m = Some c -> entryState (g c) = None.

(** ** A graph with cycles

    State 1 is its own parent and reacts to event type 1 only; state 2
    goes, on event type 0, to state 3, which is its own entry state. *)
Module Cyclic.

Definition states : graph := fun a =>
  match a with
  | 1 => mkState (Some 1) None [mkTransition 1%Z 0%Z None None (Some 1)]
           1%Z None None
  | 2 => mkState None None [mkTransition 0%Z 0%Z None None (Some 3)]
           2%Z None None
  | 3 => mkState None (Some 3) [] 3%Z None None
  | _ => mkState None None [] 0%Z None None
  end.

Definition ev0 : event := mkEvent 0%Z 0%Z.

End Cyclic.

(** ** The earlier revision of the engine

    [src/stateMachine.c] holds the revision before [getTransition] was
    split off: [goToNextState] scans the transitions and runs the exit
    action and the transition action itself, the action being called with
    the state's data and the event only; [stateM_handleEvent] follows a
    single entry-state link and has no early return for a state without
    transitions.  [stateM_init], the accessors and [stateM_stopped] are
    those of the later revision. *)
Module Earlier.

Inductive call : Type :=
| Exit (f : fnptr) (stateData : word) (ev : event)
| Action (f : fnptr) (stateData : word) (ev : event)
| Entry (f : fnptr) (stateData : word) (ev : event).

Definition run_exit (s : state) (ev : event) : list call :=
  match exitAction s with
  | Some f => [Exit f (data s) ev]
  | None => []
  end.

Definition run_action (t : transition) (s : state) (ev : event)
  : list call :=
  match action t with
  | Some f => [Action f (data s) ev]
  | None => []
  end.

Definition run_entry (s : state) (ev : event) : list call :=
  match entryAction s with
  | Some f => [Entry f (data s) ev]
  | None => []
  end.

Definition goToErrorState (g : graph) (fsm : stateMachine) (ev : event)
  : stateMachine * list call :=
  let fsm' := {| currentState := errorState fsm;
                 previousState := currentState fsm;
                 errorState := errorState fsm |} in
  (fsm', match currentState fsm' with
         | Some e => run_entry (g e) ev
         | None => []
         end).

(** The [else] branch of [goToNextState]: the transition [t] of the
    state [s] is taken. *)
Definition leave (g : graph) (fsm : stateMachine) (s : addr) (ev : event)
  (t : transition) : option addr * stateMachine * list call :=
  let tr := (if negb (ptr_eqb (nextState t) (Some s))
             then run_exit (g s) ev else [])
            ++ run_action t (g s) ev in
  match nextState t with
  | None =>
      let (fsm', tr') := goToErrorState g fsm ev in (None, fsm', tr ++ tr')
  | Some n => (Some n, fsm, tr)
  end.

(** The [for] loop of [goToNextState]. *)
Fixpoint scanNext (ts : list transition) (g : graph) (fsm : stateMachine)
  (s : addr) (ev : event) : option addr * stateMachine * list call :=
  match ts with
  | [] => (None, fsm, [])
  | t :: rest =>
      if (eventType t =? type ev)%Z then
        if match guard t with
           | Some gd => negb (gd (condition t) ev)
           | None => false
           end
        then scanNext rest g fsm s ev
        else leave g fsm s ev t
      else scanNext rest g fsm s ev
  end.

Definition goToNextState (g : graph) (fsm : stateMachine) (s : addr)
  (ev : event) : option addr * stateMachine * list call :=
  scanNext (transitions (g s)) g fsm s ev.

(** The [else] branch of the [do] loop: the machine moves to [n], then
    to the entry state of [n] if it has one, and runs the entry action. *)
Definition enter (g : graph) (fsm : stateMachine) (n : addr) (ev : event)
  : stateM_handleEventRetVals * stateMachine * list call :=
  let fsm1 := {| currentState := Some n;
                 previousState := currentState fsm;
                 errorState := errorState fsm |} in
  let (fsm2, l) :=
    match entryState (g n) with
    | Some e => ({| currentState := Some e;
                    previousState := currentState fsm1;
                    errorState := errorState fsm1 |}, e)
    | None => (fsm1, n)
    end in
  (if ptr_eqb (currentState fsm2) (errorState fsm2)
   then stateM_errorStateReached
   else if numTransitions (g l) =? 0
   then stateM_finalStateReached
   else stateM_stateChanged,
   fsm2, run_entry (g l) ev).

(** The [do ... while ( nextState )] loop. *)
Fixpoint dispatch (fuel : nat) (g : graph) (fsm : stateMachine)
  (ev : event) (s : addr)
  : option (stateM_handleEventRetVals * stateMachine * list call) :=
  match fuel with
  | O => None
  | S fuel' =>
      let parent := parentState (g s) in
      let '(next, fsm1, tr) := goToNextState g fsm s ev in
      if ptr_eqb (currentState fsm1) (errorState fsm1)
      then Some (stateM_errorStateReached, fsm1, tr)
      else if ptr_eqb next (currentState fsm1)
      then Some (stateM_stateLoopSelf, fsm1, tr)
      else
        match next with
        | None =>
            match parent with
            | Some p =>
                match dispatch fuel' g fsm1 ev p with
                | Some (rv, fsm2, tr') => Some (rv, fsm2, tr ++ tr')
                | None => None
                end
            | None => Some (stateM_noStateChange, fsm1, tr)
            end
        | Some n =>
            let '(rv, fsm2, tr') := enter g fsm1 n ev in
            Some (rv, fsm2, tr ++ tr')
        end
  end.

Definition stateM_handleEvent (fuel : nat) (g : graph)
  (fsm : option stateMachine) (ev : option event)
  : option (stateM_handleEventRetVals * option stateMachine * list call) :=
  match fsm, ev with
  | Some m, Some e =>
      match currentState m with
      | None =>
          let (m', tr) := goToErrorState g m e in
          Some (stateM_errorStateReached, Some m', tr)
      | Some cur =>
          match dispatch fuel g m e cur with
          | Some (rv, m', tr) => Some (rv, Some m', tr)
          | None => None
          end
      end
  | _, _ => Some (stateM_errArg, fsm, [])
  end.

(** The caller's loop of the example program. *)
Fixpoint feed (fuel : nat) (g : graph) (fsm : option stateMachine)
  (evs : list event)
  : option (list stateM_handleEventRetVals * option stateMachine * list call) :=
  match evs with
  | [] => Some ([], fsm, [])
  | e :: rest =>
      match stateM_handleEvent fuel g fsm (Some e) with
      | None => None
      | Some (rv, fsm', tr) =>
          match feed fuel g fsm' rest with
          | None => None
          | Some (rvs, fsm'', tr') => Some (rv :: rvs, fsm'', tr ++ tr')
          end
      end
  end.

(** The state the earlier revision lands on from the next state [n]: one
    entry-state link at most. *)
Definition landing (g : graph) (n : addr) : addr :=
  match entryState (g n) with
  | Some e => e
  | None => n
  end.

End Earlier.

(** The later revision's call log as the earlier revision writes it: the
    transition action without the new state's data. *)
Definition erase (c : call) : Earlier.call :=
  match c with
  | ExitCall f d ev => Earlier.Exit f d ev
  | ActionCall f old ev _ => Earlier.Action f old ev
  | EntryCall f d ev => Earlier.Entry f d ev
  end.

(** Bubbling with the state that holds the transition found. *)
Inductive resolves_at (g : graph) (ev : event)
  : addr -> option (addr * transition) -> Prop :=
| resolves_at_here s t :
    getTransition (g s) ev = Some t ->
    resolves_at g ev s (Some (s, t))
| resolves_at_root s :
    getTransition (g s) ev = None ->
    parentState (g s) = None ->
    resolves_at g ev s None
| resolves_at_up s p r :
    getTransition (g s) ev = None ->
    parentState (g s) = Some p ->
    resolves_at g ev p r ->
    resolves_at g ev s r.

(** ** The keyboard example

    The state graph of the example program that comes with the earlier
    revision: it checks keyboard input against the strings "ha" and "hi"
    followed by a newline.  The states [idle], [h], [i] and [a] are
    children of a group state whose transitions answer the reset
    character and every unrecognised character.  The state data is the
    state's name, here a number. *)
Module Keyboard.

Definition Event_keyboard : Z := 0%Z.

Definition groupState : addr := 1.
Definition idleState : addr := 2.
Definition hState : addr := 3.
Definition iState : addr := 4.
Definition aState : addr := 5.
Definition errorState : addr := 6.

Definition printRecognisedChar : fnptr := 1.
Definition printUnrecognisedChar : fnptr := 2.
Definition printReset : fnptr := 3.
Definition printHiMsg : fnptr := 4.
Definition printHaMsg : fnptr := 5.
Definition printErrMsg : fnptr := 6.
Definition printEnterMsg : fnptr := 7.
Definition printExitMsg : fnptr := 8.

Definition compareKeyboardChar (ch : word) (ev : event) : bool :=
  if negb (type ev =? Event_keyboard)%Z then false
  else (ch =? payload ev)%Z.

Definition ch_bang : Z := 33%Z.
Definition ch_newline : Z := 10%Z.
Definition ch_a : Z := 97%Z.
Definition ch_h : Z := 104%Z.
Definition ch_i : Z := 105%Z.

Definition on (ch : Z) (act : option fnptr) (target : addr) : transition :=
  mkTransition Event_keyboard ch (Some compareKeyboardChar) act (Some target).

Definition states : graph := fun s =>
  match s with
  | 1 => mkState None (Some idleState)
           [on ch_bang (Some printReset) idleState;
            mkTransition Event_keyboard 0%Z None
              (Some printUnrecognisedChar) (Some idleState)]
           1%Z (Some printEnterMsg) (Some printExitMsg)
  | 2 => mkState (Some groupState) None
           [on ch_h None hState]
           2%Z (Some printEnterMsg) (Some printExitMsg)
  | 3 => mkState (Some groupState) None
           [on ch_a None aState; on ch_i None iState]
           3%Z (Some printRecognisedChar) (Some printExitMsg)
  | 4 => mkState (Some groupState) None
           [on ch_newline (Some printHiMsg) idleState]
           4%Z (Some printRecognisedChar) (Some printExitMsg)
  | 5 => mkState (Some groupState) None
           [on ch_newline (Some printHaMsg) idleState]
           5%Z (Some printRecognisedChar) (Some printExitMsg)
  | 6 => mkState None None [] 0%Z (Some printErrMsg) None
  | _ => mkState None None [] 0%Z None None
  end.

Definition key (ch : Z) : event := mkEvent Event_keyboard ch.

(** The machine of [main] after [stateM_init]. *)
Definition fsm0 : option stateMachine :=
  fst (stateM_init (Some (mkStateMachine None None None))
         (Some idleState) (Some errorState)).

(** One of the four states the input is parsed in. *)
Definition parsing (s : addr) : bool :=
  (s =? idleState) || (s =? hState) || (s =? iState) || (s =? aState).

(** The state after reading [ch] in the parsing state [s], as the
    diagram of the example draws it. *)
Definition next (s : addr) (ch : Z) : addr :=
  if (s =? idleState) && (ch =? ch_h)%Z then hState
  else if (s =? hState) && (ch =? ch_a)%Z then aState
  else if (s =? hState) && (ch =? ch_i)%Z then iState
  else idleState.

End Keyboard.

(** ** The oldest revision of the engine

    The second document of [unnamed/part_001]: as the earlier revision,
    but a self-loop is answered with the no-state-change code, nothing
    is checked against the error state after the entry action, and the
    transition action is called with the event only. *)
Module Oldest.

Inductive call : Type :=
| Exit (f : fnptr) (stateData : word) (ev : event)
| Action (f : fnptr) (ev : event)
| Entry (f : fnptr) (stateData : word) (ev : event).

Definition run_exit (s : state) (ev : event) : list call :=
  match exitAction s with
  | Some f => [Exit f (data s) ev]
  | None => []
  end.

Definition run_action (t : transition) (ev : event) : list call :=
  match action t with
  | Some f => [Action f ev]
  | None => []
  end.

Definition run_entry (s : state) (ev : event) : list call :=
  match entryAction s with
  | Some f => [Entry f (data s) ev]
  | None => []
  end.

Definition goToErrorState (g : graph) (fsm : stateMachine) (ev : event)
  : stateMachine * list call :=
  let fsm' := {| currentState := errorState fsm;
                 previousState := currentState fsm;
                 errorState := errorState fsm |} in
  (fsm', match currentState fsm' with
         | Some e => run_entry (g e) ev
         | None => []
         end).

Definition leave (g : graph) (fsm : stateMachine) (s : addr) (ev : event)
  (t : transition) : option addr * stateMachine * list call :=
  let tr := (if negb (ptr_eqb (nextState t) (Some s))
             then run_exit (g s) ev else [])
            ++ run_action t ev in
  match nextState t with
  | None =>
      let (fsm', tr') := goToErrorState g fsm ev in (None, fsm', tr ++ tr')
  | Some n => (Some n, fsm, tr)
  end.

Fixpoint scanNext (ts : list transition) (g : graph) (fsm : stateMachine)
  (s : addr) (ev : event) : option addr * stateMachine * list call :=
  match ts with
  | [] => (None, fsm, [])
  | t :: rest =>
      if (eventType t =? type ev)%Z then
        if match guard t with
           | Some gd => negb (gd (condition t) ev)
           | None => false
           end
        then scanNext rest g fsm s ev
        else leave g fsm s ev t
      else scanNext rest g fsm s ev
  end.

Definition goToNextState (g : graph) (fsm : stateMachine) (s : addr)
  (ev : event) : option addr * stateMachine * list call :=
  scanNext (transitions (g s)) g fsm s ev.

Definition enter (g : graph) (fsm : stateMachine) (n : addr) (ev : event)
  : stateM_handleEventRetVals * stateMachine * list call :=
  let fsm1 := {| currentState := Some n;
                 previousState := currentState fsm;
                 errorState := errorState fsm |} in
  let (fsm2, l) :=
    match entryState (g n) with
    | Some e => ({| currentState := Some e;
                    previousState := currentState fsm1;
                    errorState := errorState fsm1 |}, e)
    | None => (fsm1, n)
    end in
  (if numTransitions (g l) =? 0
   then stateM_finalStateReached
   else stateM_stateChanged,
   fsm2, run_entry (g l) ev).

Fixpoint dispatch (fuel : nat) (g : graph) (fsm : stateMachine)
  (ev : event) (s : addr)
  : option (stateM_handleEventRetVals * stateMachine * list call) :=
  match fuel with
  | O => None
  | S fuel' =>
      let parent := parentState (g s) in
      let '(next, fsm1, tr) := goToNextState g fsm s ev in
      if ptr_eqb (currentState fsm1) (errorState fsm1)
      then Some (stateM_errorStateReached, fsm1, tr)
      else if ptr_eqb next (currentState fsm1)
      then Some (stateM_noStateChange, fsm1, tr)
      else
        match next with
        | None =>
            match parent with
            | Some p =>
                match dispatch fuel' g fsm1 ev p with
                | Some (rv, fsm2, tr') => Some (rv, fsm2, tr ++ tr')
                | None => None
                end
            | None => Some (stateM_noStateChange, fsm1, tr)
            end
        | Some n =>
            let '(rv, fsm2, tr') := enter g fsm1 n ev in
            Some (rv, fsm2, tr ++ tr')
        end
  end.

Definition stateM_handleEvent (fuel : nat) (g : graph)
  (fsm : option stateMachine) (ev : option event)
  : option (stateM_handleEventRetVals * option stateMachine * list call) :=
  match fsm, ev with
  | Some m, Some e =>
      match currentState m with
      | None =>
          let (m', tr) := goToErrorState g m e in
          Some (stateM_errorStateReached, Some m', tr)
      | Some cur =>
          match dispatch fuel g m e cur with
          | Some (rv, m', tr) => Some (rv, Some m', tr)
          | None => None
          end
      end
  | _, _ => Some (stateM_errArg, fsm, [])
  end.

End Oldest.





(** * Verification *)

(** ** Transition resolution *)

Lemma matches_iff (t : transition) (ev : event) :
  matches t ev = true <->
  eventType t = type ev
  /\ (guard t = None
      \/ exists gd, guard t = Some gd /\ gd (condition t) ev = true).
Proof.
  unfold matches. rewrite andb_true_iff, Z.eqb_eq.
  destruct (guard t) as [gd|].
  - split; intros [Ht Hg]; split; trivial.
    + right. exists gd. split; trivial.
    + destruct Hg as [Hg | [gd' [Heq Hg]]]; [discriminate|].
      injection Heq as <-. exact Hg.
  - split; intros [Ht _]; split; trivial. left; reflexivity.
Qed.

Lemma scanTransitions_find (ts : list transition) (ev : event) :
  scanTransitions ts ev = find (fun t => matches t ev) ts.
Proof.
  induction ts as [|t rest IH]; simpl; [reflexivity|].
  unfold matches at 1.
  destruct (eventType t =? type ev)%Z; simpl; [|exact IH].
  destruct (guard t) as [gd|]; [|reflexivity].
  destruct (gd (condition t) ev); [reflexivity | exact IH].
Qed.

Section FirstMatch.

Context {A : Type} (p : A -> bool).

Lemma find_first_index (l : list A) (x : A) :
  find p l = Some x ->
  exists i, nth_error l i = Some x /\ p x = true
            /\ forall j y, j < i -> nth_error l j = Some y -> p y = false.
Proof.
  induction l as [|a l IH]; simpl; [discriminate|].
  destruct (p a) eqn:Hpa.
  - intros [= ->]. exists 0. repeat split; trivial. intros j y Hj; lia.
  - intros Hf. destruct (IH Hf) as [i [Hi [Hx Hlt]]].
    exists (S i). repeat split; trivial.
    intros [|j] y Hj; simpl.
    + intros [= <-]. exact Hpa.
    + apply Hlt. lia.
Qed.

Lemma find_none_iff (l : list A) :
  find p l = None <-> forall x, In x l -> p x = false.
Proof.
  split; [apply find_none|].
  induction l as [|a l IH]; simpl; intros H; [reflexivity|].
  rewrite (H a (or_introl eq_refl)). apply IH. intros x Hx. apply H. now right.
Qed.

End FirstMatch.

Lemma getTransition_matches (st : state) (ev : event) (t : transition) :
  getTransition st ev = Some t ->
  In t (transitions st) /\ matches t ev = true.
Proof.
  unfold getTransition. rewrite scanTransitions_find. apply find_some.
Qed.

Lemma getTransition_nonempty (st : state) (ev : event) (t : transition) :
  getTransition st ev = Some t -> numTransitions st <> 0.
Proof.
  unfold getTransition, numTransitions.
  destruct (transitions st); simpl; [discriminate | intros _; lia].
Qed.

(** ** Fuel *)

Lemma stepDown_lands (g : graph) (s l : addr) :
  lands g s l ->
  exists k, forall fuel, k <= fuel -> stepDown fuel g s = Some l.
Proof.
  induction 1 as [s Hs | s e l Hs _ [k Hk]].
  - exists 1. intros [|fuel] Hf; [lia|]. simpl. now rewrite Hs.
  - exists (S k). intros [|fuel] Hf; [lia|]. simpl. rewrite Hs.
    apply Hk. lia.
Qed.

Lemma stepDown_sound (fuel : nat) (g : graph) (s l : addr) :
  stepDown fuel g s = Some l -> lands g s l.
Proof.
  revert s. induction fuel as [|fuel IH]; intros s; simpl; [discriminate|].
  destruct (entryState (g s)) as [e|] eqn:He.
  - intros H. eapply lands_down; eauto.
  - intros [= <-]. now apply lands_here.
Qed.

Lemma lands_no_entry (g : graph) (s l : addr) :
  lands g s l -> entryState (g l) = None.
Proof. induction 1; assumption. Qed.

Lemma lands_functional (g : graph) (s l l' : addr) :
  lands g s l -> lands g s l' -> l = l'.
Proof.
  induction 1 as [s Hs | s e l Hs _ IH]; inversion 1; subst;
    try congruence.
  apply IH. congruence.
Qed.

Lemma resolves_functional (g : graph) (ev : event) (s : addr)
  (r r' : option transition) :
  resolves g ev s r -> resolves g ev s r' -> r = r'.
Proof.
  induction 1 as [s t Ht | s Ht Hp | s p r Ht Hp _ IH]; inversion 1; subst;
    try congruence.
  apply IH. congruence.
Qed.

Lemma rooted_resolves (g : graph) (ev : event) (s : addr) :
  rooted g s -> exists r, resolves g ev s r.
Proof.
  induction 1 as [s Hs | s p Hs _ [r Hr]];
    destruct (getTransition (g s) ev) as [t|] eqn:Ht.
  - exists (Some t). now apply resolves_here.
  - exists None. now apply resolves_root.
  - exists (Some t). now apply resolves_here.
  - exists r. eapply resolves_up; eauto.
Qed.

Lemma dispatch_resolves (g : graph) (m : stateMachine) (cur : addr)
  (ev : event) (s : addr) (r : option transition) :
  resolves g ev s r ->
  exists k, forall fuel,
    dispatch (k + fuel) g m cur ev s =
    match r with
    | None => Some (stateM_noStateChange, m, [])
    | Some t => takeTransition fuel g m cur ev t
    end.
Proof.
  induction 1 as [s t Ht | s Ht Hp | s p r Ht Hp _ [k Hk]].
  - exists 1. intros fuel. simpl. now rewrite Ht.
  - exists 1. intros fuel. simpl. now rewrite Ht, Hp.
  - exists (S k). intros fuel. simpl. rewrite Ht, Hp. apply Hk.
Qed.

Lemma ptr_eqb_eq (p q : option addr) : ptr_eqb p q = true <-> p = q.
Proof.
  destruct p as [a|], q as [b|]; simpl; try (split; congruence).
  rewrite Nat.eqb_eq. split; congruence.
Qed.

Lemma takeTransition_lands (g : graph) (m : stateMachine) (c : addr)
  (ev : event) (t : transition) (n l : addr) :
  currentState m = Some c ->
  nextState t = Some n ->
  lands g n l ->
  exists k, forall fuel, k <= fuel ->
    takeTransition fuel g m c ev t =
    Some (classify g m c l, moved m c l, commit_calls g c l ev t).
Proof.
  intros Hc Hn Hl. destruct (stepDown_lands g n l Hl) as [k Hk].
  exists k. intros fuel Hf. unfold takeTransition.
  rewrite Hn, (Hk fuel Hf). cbn [currentState previousState errorState].
  rewrite Hc. unfold classify, commit_calls, moved, ptr_eqb at 1.
  destruct (l =? c); reflexivity.
Qed.

Lemma takeTransition_unset (fuel : nat) (g : graph) (m : stateMachine)
  (c : addr) (ev : event) (t : transition) :
  nextState t = None ->
  takeTransition fuel g m c ev t =
  Some (stateM_errorStateReached,
        {| currentState := errorState m;
           previousState := currentState m;
           errorState := errorState m |},
        match errorState m with
        | Some e => call_entry (g e) ev
        | None => []
        end).
Proof. intros Hn. unfold takeTransition. now rewrite Hn. Qed.

Lemma handleEvent_gate (fuel : nat) (g : graph) (m : stateMachine)
  (c : addr) (ev : event) :
  currentState m = Some c ->
  numTransitions (g c) = 0 ->
  stateM_handleEvent fuel g (Some m) (Some ev) =
  Some (stateM_noStateChange, Some m, []).
Proof.
  intros Hc Hz. unfold stateM_handleEvent. now rewrite Hc, Hz.
Qed.

Lemma handleEvent_dispatch (fuel : nat) (g : graph) (m : stateMachine)
  (c : addr) (ev : event) :
  currentState m = Some c ->
  numTransitions (g c) <> 0 ->
  stateM_handleEvent fuel g (Some m) (Some ev) =
  match dispatch fuel g m c ev c with
  | Some (rv, m', tr) => Some (rv, Some m', tr)
  | None => None
  end.
Proof.
  intros Hc Hz. unfold stateM_handleEvent. rewrite Hc.
  apply Nat.eqb_neq in Hz. now rewrite Hz.
Qed.

Lemma handleEvent_acts (g : graph) (m : stateMachine) (ev : event)
  (c : addr) (r : option transition) :
  currentState m = Some c ->
  numTransitions (g c) <> 0 ->
  resolves g ev c r ->
  acts_on g m ev c r.
Proof.
  intros Hc Hz Hr.
  destruct (dispatch_resolves g m c ev c r Hr) as [k Hk].
  exists k. intros fuel.
  rewrite (handleEvent_dispatch _ g m c ev Hc Hz), Hk.
  destruct r; reflexivity.
Qed.

(** A committed transition: the whole outcome, for every sufficient fuel. *)
Lemma handleEvent_commit (g : graph) (m : stateMachine) (ev : event)
  (c : addr) (t : transition) (n l : addr) :
  currentState m = Some c ->
  numTransitions (g c) <> 0 ->
  resolves g ev c (Some t) ->
  nextState t = Some n ->
  lands g n l ->
  exists k, forall fuel, k <= fuel ->
    stateM_handleEvent fuel g (Some m) (Some ev) =
    Some (classify g m c l, Some (moved m c l), commit_calls g c l ev t).
Proof.
  intros Hc Hz Hr Hn Hl.
  destruct (handleEvent_acts g m ev c _ Hc Hz Hr) as [k1 H1].
  destruct (takeTransition_lands g m c ev t n l Hc Hn Hl) as [k2 H2].
  exists (k1 + k2). intros fuel Hf.
  replace fuel with (k1 + (fuel - k1)) by lia.
  rewrite H1, H2 by lia. reflexivity.
Qed.

Lemma handleEvent_present (fuel : nat) (g : graph) (m : stateMachine)
  (ev : option event) rv fsm' tr :
  stateM_handleEvent fuel g (Some m) ev = Some (rv, fsm', tr) ->
  exists m', fsm' = Some m'.
Proof.
  unfold stateM_handleEvent. destruct ev as [e|].
  - destruct (currentState m) as [c|].
    + destruct (numTransitions (g c) =? 0).
      * intros [= _ <- _]. eauto.
      * destruct (dispatch fuel g m c e c) as [[[rv' m'] tr']|];
          [|discriminate].
        intros [= _ <- _]. eauto.
    + simpl. intros [= _ <- _]. eauto.
  - intros [= _ <- _]. eauto.
Qed.

(** ** What a returned result tells about the run *)

Lemma dispatch_sound (fuel : nat) (g : graph) (m : stateMachine) (c : addr)
  (ev : event) (s : addr) res :
  dispatch fuel g m c ev s = Some res ->
  exists r, resolves g ev s r /\
    match r with
    | None => res = (stateM_noStateChange, m, [])
    | Some t => exists fuel', takeTransition fuel' g m c ev t = Some res
    end.
Proof.
  revert s. induction fuel as [|fuel IH]; intros s; simpl; [discriminate|].
  destruct (getTransition (g s) ev) as [t|] eqn:Ht.
  - intros H. exists (Some t). split; [now apply resolves_here | eauto].
  - destruct (parentState (g s)) as [p|] eqn:Hp.
    + intros H. destruct (IH _ H) as [r [Hr Hm]]. exists r.
      split; [eapply resolves_up; eauto | exact Hm].
    + intros [= <-]. exists None. split; [now apply resolves_root | reflexivity].
Qed.

Lemma resolves_selected (g : graph) (ev : event) (s : addr) (t : transition) :
  resolves g ev s (Some t) ->
  exists s', getTransition (g s') ev = Some t.
Proof.
  remember (Some t) as r eqn:Er.
  induction 1 as [s t' Ht | s Ht Hp | s p r Ht Hp _ IH];
    [injection Er as -> | discriminate | ]; eauto.
Qed.

Lemma takeTransition_actions (fuel : nat) (g : graph) (m : stateMachine)
  (c : addr) (ev : event) (t : transition) rv m' tr f o e n :
  takeTransition fuel g m c ev t = Some (rv, m', tr) ->
  In (ActionCall f o e n) tr ->
  action t = Some f.
Proof.
  unfold takeTransition, goToErrorState, call_exit, call_entry, call_action.
  destruct (nextState t) as [nx|].
  - destruct (stepDown fuel g nx) as [l|]; [|discriminate].
    intros [= _ _ <-] Hin.
    apply in_app_or in Hin. destruct Hin as [Hin | Hin].
    + destruct (negb (l =? c)); [|contradiction].
      destruct (exitAction (g c)); simpl in Hin; [|contradiction].
      destruct Hin as [Hin | []]. discriminate.
    + apply in_app_or in Hin. destruct Hin as [Hin | Hin].
      * destruct (action t); simpl in Hin; [|contradiction].
        destruct Hin as [Hin | []]. congruence.
      * destruct (negb (l =? c)); [|contradiction].
        destruct (entryAction (g l)); simpl in Hin; [|contradiction].
        destruct Hin as [Hin | []]. discriminate.
  - cbn [currentState]. intros [= _ _ <-] Hin.
    destruct (errorState m) as [x|]; [|contradiction].
    destruct (entryAction (g x)); simpl in Hin; [|contradiction].
    destruct Hin as [Hin | []]. discriminate.
Qed.

Lemma handleEvent_actions (fuel : nat) (g : graph) (m : stateMachine)
  (ev : event) rv fsm' tr f o e n :
  stateM_handleEvent fuel g (Some m) (Some ev) = Some (rv, fsm', tr) ->
  In (ActionCall f o e n) tr ->
  exists s t, getTransition (g s) ev = Some t /\ action t = Some f.
Proof.
  unfold stateM_handleEvent.
  destruct (currentState m) as [c|] eqn:Hc.
  - destruct (numTransitions (g c) =? 0); [intros [= _ _ <-] []|].
    destruct (dispatch fuel g m c ev c) as [[[rv' m'] tr']|] eqn:Hd;
      [|discriminate].
    intros [= _ _ <-] Hin.
    destruct (dispatch_sound _ _ _ _ _ _ _ Hd) as [[t|] [Hr Hres]].
    + destruct Hres as [fuel' Ht].
      destruct (resolves_selected _ _ _ _ Hr) as [s Hs].
      exists s, t. split; [exact Hs|].
      eapply takeTransition_actions; eauto.
    + injection Hres as _ _ ->. contradiction.
  - unfold goToErrorState, call_entry. cbn [currentState].
    intros [= _ _ <-] Hin.
    destruct (errorState m) as [x|]; [|contradiction].
    destruct (entryAction (g x)); simpl in Hin; [|contradiction].
    destruct Hin as [Hin | []]. discriminate.
Qed.

(** A search that neither finds a transition nor runs out of ancestors
    (the parent links form a cycle) returns at no fuel; likewise an entry
    chain that never ends. *)
Lemma dispatch_diverges (g : graph) (m : stateMachine) (c : addr)
  (ev : event) (s : addr) :
  (forall r, ~ resolves g ev s r) ->
  forall fuel, dispatch fuel g m c ev s = None.
Proof.
  intros Hnone fuel.
  destruct (dispatch fuel g m c ev s) as [res|] eqn:Hd; [|reflexivity].
  destruct (dispatch_sound _ _ _ _ _ _ _ Hd) as [r [Hr _]].
  destruct (Hnone r Hr).
Qed.

Lemma stepDown_diverges (g : graph) (s : addr) :
  (forall l, ~ lands g s l) ->
  forall fuel, stepDown fuel g s = None.
Proof.
  intros Hnone fuel.
  destruct (stepDown fuel g s) as [l|] eqn:Hs; [|reflexivity].
  destruct (Hnone l (stepDown_sound _ _ _ _ Hs)).
Qed.

(** ** Dispatch *)

(** C2. Transition resolution is a first-match scan.  [getTransition]
    computes the first transition of the state, in array order, whose event
    type equals the event's and whose guard is absent or holds of the
    condition value and the event: it agrees with [resolve_spec]; a returned
    transition sits at an index before which no entry matches; the result
    is no-match exactly when no entry matches.  A transition whose guard
    returns false is never returned, and every transition action the
    engine invokes is the action of a transition that resolution returned
    for this event. *)
Theorem getTransition_first_match (st : state) (ev : event) :
  getTransition st ev = resolve_spec st ev
  /\ (forall t, getTransition st ev = Some t ->
        exists i, nth_error (transitions st) i = Some t
                  /\ matches t ev = true
                  /\ forall j t', j < i ->
                       nth_error (transitions st) j = Some t' ->
                       matches t' ev = false)
  /\ (getTransition st ev = None <->
      forall t, In t (transitions st) -> matches t ev = false)
  /\ (forall t gd, guard t = Some gd -> gd (condition t) ev = false ->
        matches t ev = false /\ getTransition st ev <> Some t)
  /\ (forall fuel g m rv fsm' tr f o e n,
        stateM_handleEvent fuel g (Some m) (Some ev) = Some (rv, fsm', tr) ->
        In (ActionCall f o e n) tr ->
        exists s t, getTransition (g s) ev = Some t /\ action t = Some f
                    /\ matches t ev = true).
Proof.
  assert (Hspec : getTransition st ev = resolve_spec st ev)
    by apply scanTransitions_find.
  split; [exact Hspec|]. split; [|split; [|split]].
  - intros t Ht. rewrite Hspec in Ht. now apply find_first_index in Ht.
  - rewrite Hspec. apply find_none_iff.
  - intros t gd Hg Hfalse.
    assert (Hm : matches t ev = false).
    { unfold matches. rewrite Hg, Hfalse. apply andb_false_r. }
    split; [exact Hm|]. intros Hsel.
    apply getTransition_matches in Hsel. destruct Hsel as [_ Hsel].
    congruence.
  - intros fuel g m rv fsm' tr f o e n Hrun Hin.
    destruct (handleEvent_actions _ _ _ _ _ _ _ _ _ _ _ Hrun Hin)
      as [s [t [Hs Ha]]].
    exists s, t. repeat split; trivial.
    now apply getTransition_matches in Hs.
Qed.

(** In state 4 of the nested test, the key [j] skips the first transition,
    whose guard fails, and selects the second. *)
Lemma getTransition_first_match_witness :
  exists i, nth_error (transitions (NestedTest.states 4)) i
            = Some (NestedTest.on NestedTest.ch_j 9)
            /\ matches (NestedTest.on NestedTest.ch_j 9)
                 (NestedTest.key NestedTest.ch_j) = true
            /\ forall j t', j < i ->
                 nth_error (transitions (NestedTest.states 4)) j = Some t' ->
                 matches t' (NestedTest.key NestedTest.ch_j) = false.
Proof.
  apply (proj1 (proj2 (getTransition_first_match
                         (NestedTest.states 4)
                         (NestedTest.key NestedTest.ch_j)))).
  reflexivity.
Defined.

(** C1, as the code has it.  From a present current state that has at
    least one transition, [stateM_handleEvent] acts on the transition that
    bubbling finds: resolution at the current state, then at its parent,
    and so on up the ancestors.  A current state with zero transitions is
    a no-op whatever its ancestors declare.  If no ancestor matches, the
    call is a no-op: it returns the no-state-change code, invokes no
    action and leaves the machine as it was.  Bubbling finds a result
    whenever the parent links end. *)
Theorem handleEvent_bubbles (g : graph) (m : stateMachine) (ev : event)
  (c : addr) :
  currentState m = Some c ->
  (numTransitions (g c) = 0 ->
     forall fuel, stateM_handleEvent fuel g (Some m) (Some ev) =
                  Some (stateM_noStateChange, Some m, []))
  /\ (numTransitions (g c) <> 0 ->
        forall r, resolves g ev c r -> acts_on g m ev c r)
  /\ (resolves g ev c None ->
        exists k, forall fuel, k <= fuel ->
          stateM_handleEvent fuel g (Some m) (Some ev) =
          Some (stateM_noStateChange, Some m, []))
  /\ (rooted g c -> exists r, resolves g ev c r).
Proof.
  intros Hc. split; [|split; [|split]].
  - intros Hz fuel. now apply handleEvent_gate with (c := c).
  - intros Hz r Hr. now apply handleEvent_acts.
  - intros Hr. destruct (Nat.eq_dec (numTransitions (g c)) 0) as [Hz | Hz].
    + exists 0. intros fuel _. now apply handleEvent_gate with (c := c).
    + destruct (handleEvent_acts g m ev c None Hc Hz Hr) as [k Hk].
      exists k. intros fuel Hf.
      replace fuel with (k + (fuel - k)) by lia. apply Hk.
  - apply rooted_resolves.
Qed.

(** In state 4 of the nested test the key [g] is handled by the parent
    state 11. *)
Lemma handleEvent_bubbles_witness :
  acts_on NestedTest.states (NestedTest.machine_at 4)
    (NestedTest.key NestedTest.ch_g) 4
    (Some (NestedTest.on NestedTest.ch_g 2)).
Proof.
  apply (proj1 (proj2 (handleEvent_bubbles NestedTest.states
                         (NestedTest.machine_at 4)
                         (NestedTest.key NestedTest.ch_g) 4 eq_refl))).
  - vm_compute. lia.
  - eapply resolves_up; [reflexivity | reflexivity |].
    apply resolves_here. reflexivity.
Defined.

(** C1 as stated fails for a final child state: state 1 has no transition,
    its parent 2 matches the event, and the call is a no-op all the same. *)
Lemma final_child_does_not_bubble :
  currentState Boundary.in_child = Some 1
  /\ resolves Boundary.states Boundary.ev0 1 (Some (Boundary.go 3))
  /\ ~ acts_on Boundary.states Boundary.in_child Boundary.ev0 1
         (Some (Boundary.go 3))
  /\ forall fuel,
       stateM_handleEvent fuel Boundary.states (Some Boundary.in_child)
         (Some Boundary.ev0) =
       Some (stateM_noStateChange, Some Boundary.in_child, []).
Proof.
  split; [reflexivity|]. split; [|split].
  - eapply resolves_up; [reflexivity | reflexivity |].
    apply resolves_here. reflexivity.
  - intros [k Hk]. specialize (Hk 1).
    rewrite (handleEvent_gate _ Boundary.states Boundary.in_child 1
               Boundary.ev0 eq_refl eq_refl) in Hk.
    discriminate Hk.
  - intros fuel. now apply handleEvent_gate with (c := 1).
Qed.

(** C3. A self-transition: when the matched transition lands on the state
    being left, [stateM_handleEvent] invokes the transition's action (if
    it has one) and nothing else, neither the state's exit action nor its
    entry action, and returns the looped-to-itself code. *)
Theorem self_transition (g : graph) (m : stateMachine) (ev : event)
  (c : addr) (t : transition) (n : addr) :
  currentState m = Some c ->
  numTransitions (g c) <> 0 ->
  resolves g ev c (Some t) ->
  nextState t = Some n ->
  lands g n c ->
  exists k, forall fuel, k <= fuel ->
    stateM_handleEvent fuel g (Some m) (Some ev) =
    Some (stateM_stateLoopSelf,
          Some {| currentState := Some c;
                  previousState := Some c;
                  errorState := errorState m |},
          match action t with
          | Some f => [ActionCall f (data (g c)) ev (data (g c))]
          | None => []
          end).
Proof.
  intros Hc Hz Hr Hn Hl.
  destruct (handleEvent_commit g m ev c t n c Hc Hz Hr Hn Hl) as [k Hk].
  exists k. intros fuel Hf. rewrite (Hk fuel Hf).
  unfold classify, commit_calls, moved, call_action.
  rewrite Nat.eqb_refl. simpl. now rewrite app_nil_r.
Qed.

(** In state 4 of the nested test the key [j] goes to the group state 9,
    whose entry state is 4 again. *)
Lemma self_transition_witness :
  exists k, forall fuel, k <= fuel ->
    stateM_handleEvent fuel NestedTest.states
      (Some (NestedTest.machine_at 4))
      (Some (NestedTest.key NestedTest.ch_j)) =
    Some (stateM_stateLoopSelf,
          Some (mkStateMachine (Some 4) (Some 4) (Some NestedTest.sE)),
          [ActionCall NestedTest.transFn 4%Z
             (NestedTest.key NestedTest.ch_j) 4%Z]).
Proof.
  apply (self_transition NestedTest.states (NestedTest.machine_at 4)
           (NestedTest.key NestedTest.ch_j) 4
           (NestedTest.on NestedTest.ch_j 9) 9).
  - reflexivity.
  - vm_compute. lia.
  - apply resolves_here. reflexivity.
  - reflexivity.
  - eapply lands_down; [reflexivity|]. apply lands_here. reflexivity.
Defined.

(** C4. Entry redirection: from the matched transition's declared next
    state the engine follows the entry-state links to the state that
    declares none, the landing state, which becomes the current state.
    The only entry action invoked is the landing state's (when it has one
    and the landing state is not the state being left): the call log is
    the exit action of the state left, the transition's action and the
    landing state's entry action, with no entry action of a state passed
    through on the way. *)
Theorem entry_redirection (g : graph) (m : stateMachine) (ev : event)
  (c : addr) (t : transition) (n l : addr) :
  currentState m = Some c ->
  numTransitions (g c) <> 0 ->
  resolves g ev c (Some t) ->
  nextState t = Some n ->
  lands g n l ->
  entryState (g l) = None
  /\ exists k rv tr,
       (forall fuel, k <= fuel ->
          stateM_handleEvent fuel g (Some m) (Some ev) =
          Some (rv,
                Some {| currentState := Some l;
                        previousState := Some c;
                        errorState := errorState m |},
                tr))
       /\ tr = (if l =? c then [] else call_exit (g c) ev)
               ++ call_action t (data (g c)) ev (data (g l))
               ++ (if l =? c then [] else call_entry (g l) ev)
       /\ filter is_entry tr =
          (if l =? c then []
           else match entryAction (g l) with
                | Some f => [EntryCall f (data (g l)) ev]
                | None => []
                end)
       /\ (forall f d e, In (EntryCall f d e) tr ->
             entryAction (g l) = Some f /\ d = data (g l) /\ e = ev).
Proof.
  intros Hc Hz Hr Hn Hl. split; [now apply lands_no_entry with (s := n)|].
  destruct (handleEvent_commit g m ev c t n l Hc Hz Hr Hn Hl) as [k Hk].
  exists k, (classify g m c l), (commit_calls g c l ev t).
  split; [exact Hk|]. split; [reflexivity|].
  assert (Hfilter :
    filter is_entry (commit_calls g c l ev t) =
    (if l =? c then []
     else match entryAction (g l) with
          | Some f => [EntryCall f (data (g l)) ev]
          | None => []
          end)).
  { unfold commit_calls, call_exit, call_action, call_entry.
    rewrite !filter_app.
    destruct (l =? c), (exitAction (g c)), (action t), (entryAction (g l));
      reflexivity. }
  split; [exact Hfilter|].
  intros f d e Hin.
  assert (Hin' : In (EntryCall f d e)
                   (filter is_entry (commit_calls g c l ev t)))
    by (apply filter_In; split; [exact Hin | reflexivity]).
  rewrite Hfilter in Hin'.
  destruct (l =? c); [contradiction|].
  destruct (entryAction (g l)) as [f'|]; [|contradiction].
  destruct Hin' as [Heq | []]. injection Heq as -> -> ->. auto.
Qed.

(** In state 5 of the nested test the unguarded transition targets the
    group state 10, whose entry chain 10, 9, 4 lands on state 4. *)
Lemma entry_redirection_witness :
  entryState (NestedTest.states 4) = None
  /\ exists k rv tr,
       (forall fuel, k <= fuel ->
          stateM_handleEvent fuel NestedTest.states
            (Some (NestedTest.machine_at 5))
            (Some (NestedTest.key NestedTest.ch_star)) =
          Some (rv,
                Some (mkStateMachine (Some 4) (Some 5) (Some NestedTest.sE)),
                tr))
       /\ tr = [ExitCall NestedTest.exitFn 5%Z
                  (NestedTest.key NestedTest.ch_star);
                ActionCall NestedTest.transFn 5%Z
                  (NestedTest.key NestedTest.ch_star) 4%Z;
                EntryCall NestedTest.entryFn 4%Z
                  (NestedTest.key NestedTest.ch_star)]
       /\ filter is_entry tr =
          [EntryCall NestedTest.entryFn 4%Z
             (NestedTest.key NestedTest.ch_star)]
       /\ (forall f d e, In (EntryCall f d e) tr ->
             entryAction (NestedTest.states 4) = Some f
             /\ d = data (NestedTest.states 4)
             /\ e = NestedTest.key NestedTest.ch_star).
Proof.
  apply (entry_redirection NestedTest.states (NestedTest.machine_at 5)
           (NestedTest.key NestedTest.ch_star) 5
           (NestedTest.always 10) 10 4).
  - reflexivity.
  - vm_compute. lia.
  - apply resolves_here. reflexivity.
  - reflexivity.
  - eapply lands_down; [reflexivity|].
    eapply lands_down; [reflexivity|].
    apply lands_here. reflexivity.
Defined.

(** C5. The error fallback: when the current state is absent at the call,
    or the transition chosen by the dispatch declares no next state, the
    current state becomes the designated error state, the error state's
    entry action (if present) is invoked with the event, and the
    error-state-reached code is returned. *)
Theorem error_state_fallback (g : graph) (m : stateMachine) (ev : event) :
  (currentState m = None ->
     forall fuel,
       stateM_handleEvent fuel g (Some m) (Some ev) =
       Some (stateM_errorStateReached,
             Some {| currentState := errorState m;
                     previousState := None;
                     errorState := errorState m |},
             match errorState m with
             | Some e => call_entry (g e) ev
             | None => []
             end))
  /\ (forall c t,
        currentState m = Some c ->
        numTransitions (g c) <> 0 ->
        resolves g ev c (Some t) ->
        nextState t = None ->
        exists k, forall fuel, k <= fuel ->
          stateM_handleEvent fuel g (Some m) (Some ev) =
          Some (stateM_errorStateReached,
                Some {| currentState := errorState m;
                        previousState := Some c;
                        errorState := errorState m |},
                match errorState m with
                | Some e => call_entry (g e) ev
                | None => []
                end)).
Proof.
  split.
  - intros Hc fuel. unfold stateM_handleEvent, goToErrorState.
    rewrite Hc. reflexivity.
  - intros c t Hc Hz Hr Hn.
    destruct (handleEvent_acts g m ev c _ Hc Hz Hr) as [k Hk].
    exists k. intros fuel Hf.
    replace fuel with (k + (fuel - k)) by lia.
    rewrite Hk, (takeTransition_unset _ g m c ev t Hn), Hc. reflexivity.
Qed.

(** A machine without current state falls back to the error state 3 of
    the boundary graph; below the misconfigured state 5, the event bubbles
    to the transition without next state. *)
Lemma error_state_fallback_witness :
  (forall fuel,
     stateM_handleEvent fuel Boundary.states
       (Some (mkStateMachine None None (Some 3))) (Some Boundary.ev0) =
     Some (stateM_errorStateReached,
           Some (mkStateMachine (Some 3) None (Some 3)),
           [EntryCall 10 3%Z Boundary.ev0]))
  /\ exists k, forall fuel, k <= fuel ->
       stateM_handleEvent fuel Boundary.states (Some Boundary.below_broken)
         (Some Boundary.ev0) =
       Some (stateM_errorStateReached,
             Some (mkStateMachine (Some 3) (Some 6) (Some 3)),
             [EntryCall 10 3%Z Boundary.ev0]).
Proof.
  split.
  - apply (proj1 (error_state_fallback Boundary.states
                    (mkStateMachine None None (Some 3)) Boundary.ev0)).
    reflexivity.
  - apply (proj2 (error_state_fallback Boundary.states Boundary.below_broken
                    Boundary.ev0) 6 Boundary.broken).
    + reflexivity.
    + vm_compute. lia.
    + eapply resolves_up; [reflexivity | reflexivity |].
      apply resolves_here. reflexivity.
    + reflexivity.
Defined.

(** ** Halting *)

Lemma halted_call (fuel : nat) (g : graph) (m : stateMachine) (l : addr)
  (ev : option event) :
  currentState m = Some l ->
  numTransitions (g l) = 0 ->
  stateM_handleEvent fuel g (Some m) ev =
  Some (match ev with
        | Some _ => stateM_noStateChange
        | None => stateM_errArg
        end, Some m, []).
Proof.
  intros Hl Hz. destruct ev as [e|]; [|reflexivity].
  now apply handleEvent_gate with (c := l).
Qed.

Lemma halted_feed (fuel : nat) (g : graph) (m : stateMachine) (l : addr)
  (evs : list event) :
  currentState m = Some l ->
  numTransitions (g l) = 0 ->
  feed fuel g (Some m) evs =
  Some (repeat stateM_noStateChange (length evs), Some m, []).
Proof.
  intros Hl Hz. induction evs as [|e evs IH]; cbn [feed]; [reflexivity|].
  rewrite (handleEvent_gate fuel g m l e Hl Hz), IH. reflexivity.
Qed.

(** C6, as the code has it.  When a matched transition lands on a state
    with zero transitions that differs from the prior state,
    [stateM_handleEvent] returns the final-state-reached code if the
    landing state is not the designated error state, and the
    error-state-reached code if it is.  Either way the machine is then
    halted: every further call leaves the machine as it is, invokes no
    action, and returns the no-state-change code (the argument-error code
    when the event is absent). *)
Theorem final_state_halts (g : graph) (m : stateMachine) (ev : event)
  (c : addr) (t : transition) (n l : addr) :
  currentState m = Some c ->
  numTransitions (g c) <> 0 ->
  resolves g ev c (Some t) ->
  nextState t = Some n ->
  lands g n l ->
  l <> c ->
  numTransitions (g l) = 0 ->
  let m' := {| currentState := Some l;
               previousState := Some c;
               errorState := errorState m |} in
  let tr := call_exit (g c) ev
            ++ call_action t (data (g c)) ev (data (g l))
            ++ call_entry (g l) ev in
  (errorState m <> Some l ->
     exists k, forall fuel, k <= fuel ->
       stateM_handleEvent fuel g (Some m) (Some ev) =
       Some (stateM_finalStateReached, Some m', tr))
  /\ (errorState m = Some l ->
        exists k, forall fuel, k <= fuel ->
          stateM_handleEvent fuel g (Some m) (Some ev) =
          Some (stateM_errorStateReached, Some m', tr))
  /\ (forall fuel ev',
        stateM_handleEvent fuel g (Some m') ev' =
        Some (match ev' with
              | Some _ => stateM_noStateChange
              | None => stateM_errArg
              end, Some m', []))
  /\ (forall fuel evs,
        feed fuel g (Some m') evs =
        Some (repeat stateM_noStateChange (length evs), Some m', [])).
Proof.
  intros Hc Hz Hr Hn Hl Hne Hfinal m' tr.
  destruct (handleEvent_commit g m ev c t n l Hc Hz Hr Hn Hl) as [k Hk].
  assert (Hcalls : commit_calls g c l ev t = tr).
  { unfold commit_calls, tr. apply Nat.eqb_neq in Hne. now rewrite Hne. }
  split; [|split; [|split]].
  - intros Herr. exists k. intros fuel Hf. rewrite (Hk fuel Hf), Hcalls.
    unfold classify. apply Nat.eqb_neq in Hne. rewrite Hne, Hfinal.
    destruct (ptr_eqb (Some l) (errorState m)) eqn:He; [|reflexivity].
    apply ptr_eqb_eq in He. congruence.
  - intros Herr. exists k. intros fuel Hf. rewrite (Hk fuel Hf), Hcalls.
    unfold classify. apply Nat.eqb_neq in Hne. rewrite Hne, Herr.
    simpl. now rewrite Nat.eqb_refl.
  - intros fuel ev'. now apply halted_call with (l := l).
  - intros fuel evs. now apply halted_feed with (l := l).
Qed.

(** The last step of the nested test: in state 3 the key [i] is handled
    by the parent 10 and reaches the final state 6. *)
Lemma final_state_halts_witness :
  exists k, forall fuel, k <= fuel ->
    stateM_handleEvent fuel NestedTest.states
      (Some (NestedTest.machine_at 3))
      (Some (NestedTest.key NestedTest.ch_i)) =
    Some (stateM_finalStateReached,
          Some (mkStateMachine (Some 6) (Some 3) (Some NestedTest.sE)),
          [ExitCall NestedTest.exitFn 3%Z (NestedTest.key NestedTest.ch_i);
           ActionCall NestedTest.transFn 3%Z
             (NestedTest.key NestedTest.ch_i) 6%Z;
           EntryCall NestedTest.entryFn 6%Z
             (NestedTest.key NestedTest.ch_i)]).
Proof.
  refine (proj1 (final_state_halts NestedTest.states
                   (NestedTest.machine_at 3)
                   (NestedTest.key NestedTest.ch_i) 3
                   (NestedTest.on NestedTest.ch_i 6) 6 6
                   eq_refl _ _ eq_refl _ _ eq_refl) _).
  - vm_compute. lia.
  - eapply resolves_up; [reflexivity | reflexivity |].
    apply resolves_here. reflexivity.
  - apply lands_here. reflexivity.
  - lia.
  - vm_compute. discriminate.
Defined.

(** C6 as stated fails when the final landing state is the designated
    error state: the transition from state 2 lands on state 3, which has
    no transition and differs from state 2, and the code returned is
    error-state-reached. *)
Lemma error_target_is_not_final :
  resolves Boundary.states Boundary.ev0 2 (Some (Boundary.go 3))
  /\ lands Boundary.states 3 3
  /\ 3 <> 2
  /\ numTransitions (Boundary.states 3) = 0
  /\ (forall fuel,
        stateM_handleEvent (2 + fuel) Boundary.states
          (Some Boundary.error_is_target) (Some Boundary.ev0) =
        Some (stateM_errorStateReached,
              Some (mkStateMachine (Some 3) (Some 2) (Some 3)),
              [ExitCall 20 2%Z Boundary.ev0;
               ActionCall 30 2%Z Boundary.ev0 3%Z;
               EntryCall 10 3%Z Boundary.ev0]))
  /\ (forall fuel fsm' tr,
        stateM_handleEvent fuel Boundary.states
          (Some Boundary.error_is_target) (Some Boundary.ev0) <>
        Some (stateM_finalStateReached, fsm', tr)).
Proof.
  assert (Hrun : forall fuel,
            stateM_handleEvent (2 + fuel) Boundary.states
              (Some Boundary.error_is_target) (Some Boundary.ev0) =
            Some (stateM_errorStateReached,
                  Some (mkStateMachine (Some 3) (Some 2) (Some 3)),
                  [ExitCall 20 2%Z Boundary.ev0;
                   ActionCall 30 2%Z Boundary.ev0 3%Z;
                   EntryCall 10 3%Z Boundary.ev0]))
    by (intros fuel; reflexivity).
  split; [|split; [|split; [|split; [|split]]]].
  - apply resolves_here. reflexivity.
  - apply lands_here. reflexivity.
  - lia.
  - reflexivity.
  - exact Hrun.
  - intros [|[|fuel]] fsm' tr; [discriminate | discriminate |].
    change (S (S fuel)) with (2 + fuel). rewrite (Hrun fuel). discriminate.
Qed.

(** C9, as the code has it.  When the matched transition lands on the
    designated error state and that state is not the state being left,
    [stateM_handleEvent] performs the normal commit (exit action of the
    state left, transition action, entry action of the error state) and
    returns the error-state-reached code. *)
Theorem error_state_as_target (g : graph) (m : stateMachine) (ev : event)
  (c : addr) (t : transition) (n l : addr) :
  currentState m = Some c ->
  numTransitions (g c) <> 0 ->
  resolves g ev c (Some t) ->
  nextState t = Some n ->
  lands g n l ->
  errorState m = Some l ->
  l <> c ->
  exists k, forall fuel, k <= fuel ->
    stateM_handleEvent fuel g (Some m) (Some ev) =
    Some (stateM_errorStateReached,
          Some {| currentState := Some l;
                  previousState := Some c;
                  errorState := Some l |},
          call_exit (g c) ev
          ++ call_action t (data (g c)) ev (data (g l))
          ++ call_entry (g l) ev).
Proof.
  intros Hc Hz Hr Hn Hl Herr Hne.
  destruct (handleEvent_commit g m ev c t n l Hc Hz Hr Hn Hl) as [k Hk].
  exists k. intros fuel Hf. rewrite (Hk fuel Hf).
  unfold classify, commit_calls, moved. apply Nat.eqb_neq in Hne.
  rewrite Hne, Herr. simpl. now rewrite Nat.eqb_refl.
Qed.

(** From state 2 of the boundary graph, with state 3 as error state. *)
Lemma error_state_as_target_witness :
  exists k, forall fuel, k <= fuel ->
    stateM_handleEvent fuel Boundary.states
      (Some Boundary.error_is_target) (Some Boundary.ev0) =
    Some (stateM_errorStateReached,
          Some (mkStateMachine (Some 3) (Some 2) (Some 3)),
          [ExitCall 20 2%Z Boundary.ev0;
           ActionCall 30 2%Z Boundary.ev0 3%Z;
           EntryCall 10 3%Z Boundary.ev0]).
Proof.
  apply (error_state_as_target Boundary.states Boundary.error_is_target
           Boundary.ev0 2 (Boundary.go 3) 3 3).
  - reflexivity.
  - vm_compute. lia.
  - apply resolves_here. reflexivity.
  - reflexivity.
  - apply lands_here. reflexivity.
  - reflexivity.
  - lia.
Defined.

(** C9 as stated fails when the error state is the state being left:
    state 4 is the current state and the designated error state, its
    transition lands on state 4, and the call runs the transition action
    only and returns the looped-to-itself code. *)
Lemma error_state_self_loop :
  currentState Boundary.in_error_loop = Some 4
  /\ errorState Boundary.in_error_loop = Some 4
  /\ resolves Boundary.states Boundary.ev0 4 (Some (Boundary.go 4))
  /\ lands Boundary.states 4 4
  /\ (forall fuel,
        stateM_handleEvent (2 + fuel) Boundary.states
          (Some Boundary.in_error_loop) (Some Boundary.ev0) =
        Some (stateM_stateLoopSelf,
              Some (mkStateMachine (Some 4) (Some 4) (Some 4)),
              [ActionCall 30 4%Z Boundary.ev0 4%Z]))
  /\ (forall fuel fsm' tr,
        stateM_handleEvent fuel Boundary.states
          (Some Boundary.in_error_loop) (Some Boundary.ev0) <>
        Some (stateM_errorStateReached, fsm', tr)).
Proof.
  assert (Hrun : forall fuel,
            stateM_handleEvent (2 + fuel) Boundary.states
              (Some Boundary.in_error_loop) (Some Boundary.ev0) =
            Some (stateM_stateLoopSelf,
                  Some (mkStateMachine (Some 4) (Some 4) (Some 4)),
                  [ActionCall 30 4%Z Boundary.ev0 4%Z]))
    by (intros fuel; reflexivity).
  split; [|split; [|split; [|split; [|split]]]].
  - reflexivity.
  - reflexivity.
  - apply resolves_here. reflexivity.
  - apply lands_here. reflexivity.
  - exact Hrun.
  - intros [|[|fuel]] fsm' tr; [discriminate | discriminate |].
    change (S (S fuel)) with (2 + fuel). rewrite (Hrun fuel). discriminate.
Qed.

(** ** Accessors and initialisation *)

(** C7, as the code has it.  [stateM_stopped] returns true exactly when
    the machine reference is absent or the current state has zero
    transitions, and false exactly when the machine and its current state
    are present and the current state has transitions (so it returns
    neither for a present machine without current state); in particular
    it is true whenever the current state is a state with zero
    transitions. *)
Theorem stopped_spec (g : graph) (fsm : option stateMachine) :
  (stateM_stopped g fsm = Def true <->
   fsm = None
   \/ exists m c, fsm = Some m /\ currentState m = Some c
                  /\ numTransitions (g c) = 0)
  /\ (stateM_stopped g fsm = Def false <->
      exists m c, fsm = Some m /\ currentState m = Some c
                  /\ numTransitions (g c) <> 0)
  /\ (forall m s, fsm = Some m -> currentState m = Some s ->
        numTransitions (g s) = 0 -> stateM_stopped g fsm = Def true).
Proof.
  unfold stateM_stopped. split; [|split].
  - destruct fsm as [m|]; [|split; auto].
    destruct (currentState m) as [c|] eqn:Hc.
    + split.
      * intros [= Hz]. apply Nat.eqb_eq in Hz. right. exists m, c. auto.
      * intros [Hn | [m' [c' [Hm [Hc' Hz]]]]]; [discriminate|].
        injection Hm as <-. rewrite Hc in Hc'. injection Hc' as <-.
        now rewrite Hz.
    + split; [discriminate|].
      intros [Hn | [m' [c' [Hm [Hc' _]]]]]; [discriminate|].
      injection Hm as <-. congruence.
  - destruct fsm as [m|].
    + destruct (currentState m) as [c|] eqn:Hc.
      * split.
        -- intros [= Hz]. apply Nat.eqb_neq in Hz. exists m, c. auto.
        -- intros [m' [c' [Hm [Hc' Hz]]]].
           injection Hm as <-. rewrite Hc in Hc'. injection Hc' as <-.
           apply Nat.eqb_neq in Hz. now rewrite Hz.
      * split; [discriminate|].
        intros [m' [c' [Hm [Hc' _]]]]. injection Hm as <-. congruence.
    + split; [discriminate|]. intros [m' [c' [Hm _]]]. discriminate.
  - intros m s -> Hs Hz. now rewrite Hs, Hz.
Qed.

(** The nested test machine is stopped in its final state 6. *)
Lemma stopped_spec_witness :
  stateM_stopped NestedTest.states (Some (NestedTest.machine_at 6))
  = Def true.
Proof.
  apply (proj2 (proj2 (stopped_spec NestedTest.states
                         (Some (NestedTest.machine_at 6))))
           (NestedTest.machine_at 6) 6);
    reflexivity.
Defined.

(** C7 as stated fails for a present machine without current state: the
    machine reference is present and no current state has zero
    transitions, yet the result is not false; the read through the absent
    current state has no defined result. *)
Lemma stopped_without_current_state :
  Some (mkStateMachine None None (Some NestedTest.sE)) <> None
  /\ ~ (exists m c,
          Some (mkStateMachine None None (Some NestedTest.sE)) = Some m
          /\ currentState m = Some c
          /\ numTransitions (NestedTest.states c) = 0)
  /\ stateM_stopped NestedTest.states
       (Some (mkStateMachine None None (Some NestedTest.sE))) <> Def false
  /\ stateM_stopped NestedTest.states
       (Some (mkStateMachine None None (Some NestedTest.sE))) = Undef.
Proof.
  split; [discriminate|]. split; [|split; [discriminate | reflexivity]].
  intros [m [c [Hm [Hc _]]]]. injection Hm as <-. discriminate Hc.
Qed.

Lemma init_times_present (n : nat) (m : stateMachine) (i e : option addr) :
  init_times (S n) (Some m) i e =
  (Some {| currentState := i; previousState := None; errorState := e |}, []).
Proof.
  revert m. induction n as [|n IH]; intros m; [reflexivity|].
  change (init_times (S (S n)) (Some m) i e)
    with (let (fsm', tr) := stateM_init (Some m) i e in
          let (fsm'', tr') := init_times (S n) fsm' i e in
          (fsm'', tr ++ tr')).
  cbn [stateM_init]. now rewrite IH.
Qed.

(** C8. [stateM_init] on a present machine, whatever the machine held
    before (a fresh one, one already initialised, one left by
    [stateM_handleEvent]), sets the current state to the given initial
    state, the error state to the given error state and the previous state
    to absent, and invokes no action.  Calling it again with the same
    arguments, any number of times, gives the same machine. *)
Theorem init_resets (m : stateMachine) (i e : option addr) :
  let fresh := {| currentState := i;
                  previousState := None;
                  errorState := e |} in
  stateM_init (Some m) i e = (Some fresh, [])
  /\ stateM_init (fst (stateM_init (Some m) i e)) i e
     = stateM_init (Some m) i e
  /\ (forall n, init_times (S n) (Some m) i e = (Some fresh, []))
  /\ (forall fuel g ev rv fsm' tr,
        stateM_handleEvent fuel g (Some m) ev = Some (rv, fsm', tr) ->
        stateM_init fsm' i e = (Some fresh, [])).
Proof.
  intros fresh. split; [reflexivity|]. split; [reflexivity|].
  split; [intros n; apply init_times_present|].
  intros fuel g ev rv fsm' tr Hrun.
  destruct (handleEvent_present _ _ _ _ _ _ _ Hrun) as [m' ->].
  reflexivity.
Qed.

(** Restarting the nested test machine from its final state 6. *)
Lemma init_resets_witness :
  stateM_init (Some (mkStateMachine (Some 6) (Some 3) (Some NestedTest.sE)))
    (Some 1) (Some NestedTest.sE)
  = (Some (mkStateMachine (Some 1) None (Some NestedTest.sE)), []).
Proof.
  apply (proj2 (proj2 (proj2
           (init_resets (NestedTest.machine_at 3) (Some 1)
              (Some NestedTest.sE))))
           3 NestedTest.states (Some (NestedTest.key NestedTest.ch_i))
           stateM_finalStateReached
           (Some (mkStateMachine (Some 6) (Some 3) (Some NestedTest.sE)))
           [ExitCall NestedTest.exitFn 3%Z (NestedTest.key NestedTest.ch_i);
            ActionCall NestedTest.transFn 3%Z
              (NestedTest.key NestedTest.ch_i) 6%Z;
            EntryCall NestedTest.entryFn 6%Z
              (NestedTest.key NestedTest.ch_i)]).
  reflexivity.
Defined.

(** C10. [stateM_stopped] reads the transition count through
    [currentState] without a check.  Its result is defined exactly when
    the machine reference is absent or the current state is present; for a
    present machine whose current state is absent, such as one
    initialised with an absent initial state, the read has no defined
    result. *)
Theorem stopped_undefined (g : graph) (fsm : option stateMachine) :
  (stateM_stopped g fsm = Undef <->
   exists m, fsm = Some m /\ currentState m = None)
  /\ ((exists b, stateM_stopped g fsm = Def b) <->
      fsm = None \/ exists m c, fsm = Some m /\ currentState m = Some c)
  /\ (forall m e, stateM_stopped g (fst (stateM_init (Some m) None e))
                  = Undef).
Proof.
  unfold stateM_stopped. split; [|split].
  - destruct fsm as [m|].
    + destruct (currentState m) as [c|] eqn:Hc.
      * split; [discriminate|]. intros [m' [Hm Hc']].
        injection Hm as <-. congruence.
      * split; [|reflexivity]. intros _. exists m. auto.
    + split; [discriminate|]. intros [m' [Hm _]]. discriminate.
  - destruct fsm as [m|].
    + destruct (currentState m) as [c|] eqn:Hc.
      * split; [|eauto]. intros _. right. exists m, c. auto.
      * split; [intros [b Hb]; discriminate|].
        intros [Hn | [m' [c' [Hm Hc']]]]; [discriminate|].
        injection Hm as <-. congruence.
    + split; [auto | eauto].
  - reflexivity.
Qed.

(** A machine initialised without initial state. *)
Lemma stopped_undefined_witness :
  stateM_stopped NestedTest.states
    (Some (mkStateMachine None None (Some NestedTest.sE))) = Undef.
Proof.
  apply (proj2 (proj1 (stopped_undefined NestedTest.states
                         (Some (mkStateMachine None None
                                  (Some NestedTest.sE)))))).
  exists (mkStateMachine None None (Some NestedTest.sE)).
  split; reflexivity.
Defined.

(** ** The nesting test of the repository

    Fed with the eighteen events of the test program, the machine answers
    state-changed to all but the fourth, a loop from state 4 to itself,
    and the last, which reaches the final state 6. *)
Example nested_test_run :
  exists tr,
    feed 4 NestedTest.states NestedTest.fsm0 NestedTest.events =
    Some (repeat stateM_stateChanged 3
          ++ [stateM_stateLoopSelf]
          ++ repeat stateM_stateChanged 13
          ++ [stateM_finalStateReached],
          Some (mkStateMachine (Some 6) (Some 3) (Some NestedTest.sE)),
          tr)
    /\ map (fun c => match c with
                     | ActionCall _ _ _ new => new
                     | _ => 0%Z
                     end)
         (filter (fun c => negb (is_entry c || is_exit c)) tr) =
       [3; 5; 4; 4; 2; 1; 3; 5; 4; 5; 4; 2; 1; 3; 2; 1; 3; 6]%Z.
Proof. eexists. split; vm_compute; reflexivity. Qed.

(** * Further properties of the engine *)

(** ** Calls and outcomes *)

Lemma handleEvent_outcome (fuel : nat) (g : graph) (m : stateMachine)
  (ev : event) rv fsm' tr :
  stateM_handleEvent fuel g (Some m) (Some ev) = Some (rv, fsm', tr) ->
  exists m', fsm' = Some m' /\ outcome g m ev rv m' tr.
Proof.
  unfold stateM_handleEvent. destruct (currentState m) as [c|] eqn:Hc.
  - destruct (numTransitions (g c) =? 0) eqn:Hz.
    + intros [= <- <- <-]. exists m. split; [reflexivity|].
      apply Nat.eqb_eq in Hz. now apply outcome_final with (c := c).
    + apply Nat.eqb_neq in Hz.
      destruct (dispatch fuel g m c ev c) as [[[rv' m'] tr']|] eqn:Hd;
        [|discriminate].
      intros [= <- <- <-]. exists m'. split; [reflexivity|].
      destruct (dispatch_sound _ _ _ _ _ _ _ Hd) as [[t|] [Hr Hres]].
      * destruct Hres as [fuel' Ht]. unfold takeTransition in Ht.
        destruct (nextState t) as [n|] eqn:Hn.
        -- destruct (stepDown fuel' g n) as [l|] eqn:Hs; [|discriminate].
           apply stepDown_sound in Hs.
           cbn [currentState previousState errorState] in Ht. rewrite Hc in Ht.
           assert (Heq : Some (classify g m c l, moved m c l,
                               commit_calls g c l ev t)
                         = Some (rv', m', tr')).
           { rewrite <- Ht. unfold classify, commit_calls, moved.
             change (ptr_eqb (Some l) (Some c)) with (l =? c).
             destruct (l =? c); reflexivity. }
           injection Heq as <- <- <-.
           now apply outcome_commit with (n := n).
        -- injection Ht as <- <- <-.
           now apply outcome_unset with (c := c) (t := t).
      * injection Hres as -> -> ->. now apply outcome_unmatched with (c := c).
  - cbn. intros [= <- <- <-]. eexists. split; [reflexivity|].
    now apply outcome_absent.
Qed.

Lemma outcome_handleEvent (g : graph) (m : stateMachine) (ev : event)
  rv m' tr :
  outcome g m ev rv m' tr ->
  exists k, forall fuel, k <= fuel ->
    stateM_handleEvent fuel g (Some m) (Some ev) = Some (rv, Some m', tr).
Proof.
  intros [Hc | c Hc Hz | c Hc Hz Hr | c t Hc Hz Hr Hn | c t n l Hc Hz Hr Hn Hl].
  - exists 0. intros fuel _. unfold stateM_handleEvent. now rewrite Hc.
  - exists 0. intros fuel _. now apply handleEvent_gate with (c := c).
  - destruct (handleEvent_acts g m ev c None Hc Hz Hr) as [k Hk].
    exists k. intros fuel Hf. replace fuel with (k + (fuel - k)) by lia.
    apply Hk.
  - destruct (handleEvent_acts g m ev c _ Hc Hz Hr) as [k Hk].
    exists k. intros fuel Hf. replace fuel with (k + (fuel - k)) by lia.
    rewrite Hk, (takeTransition_unset _ g m c ev t Hn). reflexivity.
  - now apply handleEvent_commit with (n := n).
Qed.

Lemma classify_cases (g : graph) (m : stateMachine) (c l : addr) :
  (l = c /\ classify g m c l = stateM_stateLoopSelf)
  \/ (l <> c /\ errorState m = Some l
      /\ classify g m c l = stateM_errorStateReached)
  \/ (l <> c /\ errorState m <> Some l /\ numTransitions (g l) = 0
      /\ classify g m c l = stateM_finalStateReached)
  \/ (l <> c /\ errorState m <> Some l /\ numTransitions (g l) <> 0
      /\ classify g m c l = stateM_stateChanged).
Proof.
  unfold classify.
  destruct (l =? c) eqn:Hlc.
  - apply Nat.eqb_eq in Hlc. auto.
  - apply Nat.eqb_neq in Hlc. right.
    destruct (ptr_eqb (Some l) (errorState m)) eqn:He.
    + apply ptr_eqb_eq in He. auto.
    + assert (He' : errorState m <> Some l).
      { intros E. rewrite E in He. simpl in He.
        now rewrite Nat.eqb_refl in He. }
      right. destruct (numTransitions (g l) =? 0) eqn:Hz.
      * apply Nat.eqb_eq in Hz. auto.
      * apply Nat.eqb_neq in Hz. auto.
Qed.

Lemma outcome_errorState (g : graph) (m : stateMachine) (ev : event)
  rv m' tr :
  outcome g m ev rv m' tr -> errorState m' = errorState m.
Proof. destruct 1; reflexivity. Qed.

(** An invariant of single calls is an invariant of every run. *)
Lemma feed_invariant (g : graph) (I : stateMachine -> Prop) :
  (forall m ev rv m' tr, I m -> outcome g m ev rv m' tr -> I m') ->
  forall fuel evs m rvs fsm' tr,
    I m ->
    feed fuel g (Some m) evs = Some (rvs, fsm', tr) ->
    exists m', fsm' = Some m' /\ I m'.
Proof.
  intros Hstep fuel evs.
  induction evs as [|e evs IH]; intros m rvs fsm' tr Hm; cbn [feed].
  - intros [= _ <- _]. eauto.
  - destruct (stateM_handleEvent fuel g (Some m) (Some e))
      as [[[rv fsm1] tr1]|] eqn:H1; [|discriminate].
    destruct (handleEvent_outcome _ _ _ _ _ _ _ H1) as [m1 [-> Ho]].
    destruct (feed fuel g (Some m1) evs) as [[[rvs2 fsm2] tr2]|] eqn:H2;
      [|discriminate].
    intros [= _ <- _]. eapply IH; [|exact H2]. eapply Hstep; eauto.
Qed.

Lemma feed_length (fuel : nat) (g : graph) (evs : list event) :
  forall fsm rvs fsm' tr,
    feed fuel g fsm evs = Some (rvs, fsm', tr) -> length rvs = length evs.
Proof.
  induction evs as [|e evs IH]; intros fsm rvs fsm' tr; cbn [feed].
  - intros [= <- _ _]. reflexivity.
  - destruct (stateM_handleEvent fuel g fsm (Some e))
      as [[[rv fsm1] tr1]|]; [|discriminate].
    destruct (feed fuel g fsm1 evs) as [[[rvs2 fsm2] tr2]|] eqn:H2;
      [|discriminate].
    intros [= <- _ _]. simpl. f_equal. eapply IH; eauto.
Qed.

(** ** Return codes *)



(** X2. The designated error state is fixed: no call of
    [stateM_handleEvent], and no sequence of calls, changes the machine's
    [errorState]; every event of a sequence gets its return code. *)
Theorem errorState_is_fixed (g : graph) (m : stateMachine) :
  (forall fuel ev rv fsm' tr,
     stateM_handleEvent fuel g (Some m) ev = Some (rv, fsm', tr) ->
     exists m', fsm' = Some m' /\ errorState m' = errorState m)
  /\ (forall fuel evs rvs fsm' tr,
        feed fuel g (Some m) evs = Some (rvs, fsm', tr) ->
        length rvs = length evs
        /\ exists m', fsm' = Some m' /\ errorState m' = errorState m).
Proof.
  split.
  - intros fuel [e|] rv fsm' tr Hrun.
    + destruct (handleEvent_outcome _ _ _ _ _ _ _ Hrun) as [m' [-> Ho]].
      exists m'. split; [reflexivity|]. eapply outcome_errorState; eauto.
    + injection Hrun as _ <- _. eauto.
  - intros fuel evs rvs fsm' tr Hrun. split.
    + eapply feed_length; eauto.
    + apply (feed_invariant g (fun x => errorState x = errorState m))
        with (fuel := fuel) (evs := evs) (m := m) (rvs := rvs) (tr := tr);
        trivial.
      intros m0 ev rv m1 tr1 Hm0 Ho.
      rewrite (outcome_errorState _ _ _ _ _ _ Ho). exact Hm0.
Qed.

Lemma errorState_is_fixed_witness :
  length (repeat stateM_stateChanged 3 ++ [stateM_stateLoopSelf]
          ++ repeat stateM_stateChanged 13 ++ [stateM_finalStateReached])
  = length NestedTest.events
  /\ exists m',
       Some (mkStateMachine (Some 6) (Some 3) (Some NestedTest.sE)) = Some m'
       /\ errorState m' = errorState (NestedTest.machine_at 1).
Proof.
  eapply (proj2 (errorState_is_fixed NestedTest.states
                   (NestedTest.machine_at 1)) 4 NestedTest.events).
  vm_compute. reflexivity.
Defined.

(** What each return code tells, read off the five outcomes. *)
Lemma outcome_code_facts (g : graph) (m : stateMachine) (ev : event)
  rv m' tr :
  outcome g m ev rv m' tr ->
  match rv with
  | stateM_errArg => False
  | stateM_noStateChange => m' = m /\ tr = []
  | stateM_errorStateReached =>
      currentState m' = errorState m /\ previousState m' = currentState m
  | stateM_stateLoopSelf =>
      exists c t,
        currentState m = Some c /\ m' = moved m c c
        /\ entryState (g c) = None
        /\ tr = call_action t (data (g c)) ev (data (g c))
  | stateM_stateChanged =>
      exists c l,
        currentState m = Some c /\ m' = moved m c l /\ l <> c
        /\ errorState m <> Some l /\ numTransitions (g l) <> 0
        /\ entryState (g l) = None
  | stateM_finalStateReached =>
      exists c l,
        currentState m = Some c /\ m' = moved m c l /\ l <> c
        /\ errorState m <> Some l /\ numTransitions (g l) = 0
        /\ entryState (g l) = None
  end.
Proof.
  intros [Hc | c Hc Hz | c Hc Hz Hr | c t Hc Hz Hr Hn | c t n l Hc Hz Hr Hn Hl];
    try (split; reflexivity).
  pose proof (lands_no_entry g n l Hl) as Hplain.
  destruct (classify_cases g m c l)
    as [[Hlc ->] | [[Hlc [He ->]] | [[Hlc [He [Hf ->]]] | [Hlc [He [Hf ->]]]]]].
  - subst l. exists c, t. repeat split; trivial.
    unfold commit_calls. rewrite Nat.eqb_refl. simpl. apply app_nil_r.
  - cbn. rewrite He, Hc. split; reflexivity.
  - exists c, l. repeat split; trivial.
  - exists c, l. repeat split; trivial.
Qed.

(** X3. The no-state-change code means a no-op: whenever a call returns
    it, the machine is exactly as before and no action was invoked. *)
Theorem noStateChange_untouched (fuel : nat) (g : graph)
  (m : stateMachine) (ev : event) fsm' tr :
  stateM_handleEvent fuel g (Some m) (Some ev)
  = Some (stateM_noStateChange, fsm', tr) ->
  fsm' = Some m /\ tr = [].
Proof.
  intros Hrun.
  destruct (handleEvent_outcome _ _ _ _ _ _ _ Hrun) as [m' [-> Ho]].
  apply outcome_code_facts in Ho. destruct Ho as [-> ->]. auto.
Qed.

Lemma noStateChange_untouched_witness :
  Some (NestedTest.machine_at 1) = Some (NestedTest.machine_at 1)
  /\ @nil call = [].
Proof.
  apply (noStateChange_untouched 3 NestedTest.states
           (NestedTest.machine_at 1) (NestedTest.key NestedTest.ch_k)).
  reflexivity.
Defined.

(** X4. The error-state-reached code means the machine is in its
    designated error state, and entering the error state from another
    state is always reported with that code. *)
Theorem errorStateReached_iff_entered (fuel : nat) (g : graph)
  (m : stateMachine) (ev : event) rv fsm' tr :
  stateM_handleEvent fuel g (Some m) (Some ev) = Some (rv, fsm', tr) ->
  (rv = stateM_errorStateReached ->
     stateM_currentState fsm' = errorState m)
  /\ (stateM_currentState fsm' = errorState m ->
      stateM_currentState fsm' <> currentState m ->
      rv = stateM_errorStateReached).
Proof.
  intros Hrun.
  destruct (handleEvent_outcome _ _ _ _ _ _ _ Hrun) as [m' [-> Ho]].
  apply outcome_code_facts in Ho. cbn [stateM_currentState].
  split.
  - intros ->. apply Ho.
  - intros Herr Hmoved. destruct rv; trivial.
    + destruct Ho.
    + destruct Ho as [c [l [Hc [-> [_ [He _]]]]]]. cbn in Herr. congruence.
    + destruct Ho as [c [t [Hc [-> _]]]]. cbn in Hmoved. congruence.
    + destruct Ho as [-> _]. congruence.
    + destruct Ho as [c [l [Hc [-> [_ [He _]]]]]]. cbn in Herr. congruence.
Qed.

Lemma errorStateReached_iff_entered_witness :
  stateM_currentState (Some (mkStateMachine (Some 3) (Some 6) (Some 3)))
  = errorState Boundary.below_broken.
Proof.
  apply (proj1 (errorStateReached_iff_entered 2 Boundary.states
                  Boundary.below_broken Boundary.ev0
                  stateM_errorStateReached
                  (Some (mkStateMachine (Some 3) (Some 6) (Some 3)))
                  [EntryCall 10 3%Z Boundary.ev0] eq_refl)).
  reflexivity.
Defined.

(** X5. The codes state-changed and final-state-reached agree with
    [stateM_stopped]: after state-changed the machine is not stopped,
    after final-state-reached it is; in both cases the machine has moved
    to another state, which is not the designated error state. *)
Theorem code_agrees_with_stopped (fuel : nat) (g : graph)
  (m : stateMachine) (ev : event) rv fsm' tr :
  stateM_handleEvent fuel g (Some m) (Some ev) = Some (rv, fsm', tr) ->
  (rv = stateM_stateChanged ->
     stateM_stopped g fsm' = Def false
     /\ stateM_currentState fsm' <> currentState m
     /\ stateM_currentState fsm' <> errorState m)
  /\ (rv = stateM_finalStateReached ->
        stateM_stopped g fsm' = Def true
        /\ stateM_currentState fsm' <> currentState m
        /\ stateM_currentState fsm' <> errorState m).
Proof.
  intros Hrun.
  destruct (handleEvent_outcome _ _ _ _ _ _ _ Hrun) as [m' [-> Ho]].
  apply outcome_code_facts in Ho.
  split; intros ->; destruct Ho as [c [l [Hc [-> [Hlc [He [Hz _]]]]]]];
    cbn; rewrite Hc.
  - apply Nat.eqb_neq in Hz. rewrite Hz. repeat split; congruence.
  - rewrite Hz. repeat split; congruence.
Qed.

Lemma code_agrees_with_stopped_witness :
  stateM_stopped NestedTest.states
    (Some (mkStateMachine (Some 6) (Some 3) (Some NestedTest.sE)))
  = Def true
  /\ stateM_currentState
       (Some (mkStateMachine (Some 6) (Some 3) (Some NestedTest.sE)))
     <> currentState (NestedTest.machine_at 3)
  /\ stateM_currentState
       (Some (mkStateMachine (Some 6) (Some 3) (Some NestedTest.sE)))
     <> errorState (NestedTest.machine_at 3).
Proof.
  apply (proj2 (code_agrees_with_stopped 3 NestedTest.states
                  (NestedTest.machine_at 3)
                  (NestedTest.key NestedTest.ch_i)
                  stateM_finalStateReached
                  (Some (mkStateMachine (Some 6) (Some 3)
                           (Some NestedTest.sE)))
                  [ExitCall NestedTest.exitFn 3%Z
                     (NestedTest.key NestedTest.ch_i);
                   ActionCall NestedTest.transFn 3%Z
                     (NestedTest.key NestedTest.ch_i) 6%Z;
                   EntryCall NestedTest.entryFn 6%Z
                     (NestedTest.key NestedTest.ch_i)] eq_refl)).
  reflexivity.
Defined.

(** X6. The looped-to-itself code means the current state is the one
    before the call, recorded as previous state as well, and that at most
    one action was invoked, the transition's. *)
Theorem loopSelf_keeps_state (fuel : nat) (g : graph)
  (m : stateMachine) (ev : event) fsm' tr :
  stateM_handleEvent fuel g (Some m) (Some ev)
  = Some (stateM_stateLoopSelf, fsm', tr) ->
  stateM_currentState fsm' = currentState m
  /\ stateM_previousState fsm' = currentState m
  /\ length tr <= 1
  /\ forall x, In x tr -> is_entry x = false /\ is_exit x = false.
Proof.
  intros Hrun.
  destruct (handleEvent_outcome _ _ _ _ _ _ _ Hrun) as [m' [-> Ho]].
  apply outcome_code_facts in Ho.
  destruct Ho as [c [t [Hc [-> [_ ->]]]]]. cbn. rewrite Hc.
  unfold call_action. destruct (action t); simpl;
    (split; [reflexivity|]; split; [reflexivity|]; split; [lia|]).
  - intros x [<- | []]. auto.
  - intros x [].
Qed.

Lemma loopSelf_keeps_state_witness :
  stateM_currentState
    (Some (mkStateMachine (Some 4) (Some 4) (Some NestedTest.sE)))
  = currentState (NestedTest.machine_at 4)
  /\ stateM_previousState
       (Some (mkStateMachine (Some 4) (Some 4) (Some NestedTest.sE)))
     = currentState (NestedTest.machine_at 4)
  /\ length [ActionCall NestedTest.transFn 4%Z
               (NestedTest.key NestedTest.ch_j) 4%Z] <= 1
  /\ forall x,
       In x [ActionCall NestedTest.transFn 4%Z
               (NestedTest.key NestedTest.ch_j) 4%Z] ->
       is_entry x = false /\ is_exit x = false.
Proof.
  apply (loopSelf_keeps_state 4 NestedTest.states
           (NestedTest.machine_at 4) (NestedTest.key NestedTest.ch_j)).
  reflexivity.
Defined.

(** X7. After every call that is not a no-op, the previous state is the
    state the machine was in before the call. *)
Theorem previous_is_old_current (fuel : nat) (g : graph)
  (m : stateMachine) (ev : event) rv fsm' tr :
  stateM_handleEvent fuel g (Some m) (Some ev) = Some (rv, fsm', tr) ->
  rv <> stateM_noStateChange ->
  stateM_previousState fsm' = stateM_currentState (Some m).
Proof.
  intros Hrun Hrv.
  destruct (handleEvent_outcome _ _ _ _ _ _ _ Hrun) as [m' [-> Ho]].
  apply outcome_code_facts in Ho. cbn. destruct rv.
  - destruct Ho.
  - apply Ho.
  - destruct Ho as [c [l [Hc [-> _]]]]. cbn. congruence.
  - destruct Ho as [c [t [Hc [-> _]]]]. cbn. congruence.
  - contradiction.
  - destruct Ho as [c [l [Hc [-> _]]]]. cbn. congruence.
Qed.

Lemma previous_is_old_current_witness :
  stateM_previousState
    (Some (mkStateMachine (Some 2) (Some 4) (Some NestedTest.sE)))
  = stateM_currentState (Some (NestedTest.machine_at 4)).
Proof.
  apply (previous_is_old_current 3 NestedTest.states
           (NestedTest.machine_at 4) (NestedTest.key NestedTest.ch_g)
           stateM_stateChanged
           (Some (mkStateMachine (Some 2) (Some 4) (Some NestedTest.sE)))
           [ExitCall NestedTest.exitFn 4%Z (NestedTest.key NestedTest.ch_g);
            ActionCall NestedTest.transFn 4%Z
              (NestedTest.key NestedTest.ch_g) 2%Z;
            EntryCall NestedTest.entryFn 2%Z
              (NestedTest.key NestedTest.ch_g)]).
  - reflexivity.
  - discriminate.
Defined.

(** ** Invariants of runs *)

Lemma outcome_current (g : graph) (m : stateMachine) (ev : event)
  rv m' tr :
  outcome g m ev rv m' tr ->
  m' = m
  \/ (currentState m' = errorState m /\ previousState m' = currentState m
      /\ rv = stateM_errorStateReached)
  \/ (exists c l, currentState m = Some c /\ m' = moved m c l
                  /\ entryState (g l) = None
                  /\ rv = classify g m c l).
Proof.
  intros [Hc | c Hc Hz | c Hc Hz Hr | c t Hc Hz Hr Hn | c t n l Hc Hz Hr Hn Hl];
    auto.
  right. right. exists c, l. repeat split; trivial.
  now apply lands_no_entry with (s := n).
Qed.

Lemma classify_not_noStateChange (g : graph) (m : stateMachine)
  (c l : addr) :
  classify g m c l <> stateM_noStateChange
  /\ classify g m c l <> stateM_errArg.
Proof.
  destruct (classify_cases g m c l)
    as [[_ ->] | [[_ [_ ->]] | [[_ [_ [_ ->]]] | [_ [_ [_ ->]]]]]];
    split; discriminate.
Qed.

(** X8. A state that declares an entry state is never the current state
    after a transition: every call that returns state-changed,
    looped-to-itself or final-state-reached leaves the machine in a state
    without entry state, and if neither the initial current state nor the
    error state declares one, no run ever makes such a state current. *)
Theorem composite_never_current (g : graph) (m : stateMachine) :
  (forall fuel ev rv fsm' tr,
     stateM_handleEvent fuel g (Some m) (Some ev) = Some (rv, fsm', tr) ->
     rv = stateM_stateChanged \/ rv = stateM_stateLoopSelf
     \/ rv = stateM_finalStateReached ->
     exists l, stateM_currentState fsm' = Some l /\ entryState (g l) = None)
  /\ (in_plain_state g m ->
      (forall e, errorState m = Some e -> entryState (g e) = None) ->
      forall fuel evs rvs fsm' tr,
        feed fuel g (Some m) evs = Some (rvs, fsm', tr) ->
        exists m', fsm' = Some m' /\ in_plain_state g m').
Proof.
  split.
  - intros fuel ev rv fsm' tr Hrun Hrv.
    destruct (handleEvent_outcome _ _ _ _ _ _ _ Hrun) as [m' [-> Ho]].
    apply outcome_code_facts in Ho. cbn.
    destruct Hrv as [-> | [-> | ->]].
    + destruct Ho as [c [l [_ [-> [_ [_ [_ Hp]]]]]]]. exists l. auto.
    + destruct Ho as [c [t [_ [-> [Hp _]]]]]. exists c. auto.
    + destruct Ho as [c [l [_ [-> [_ [_ [_ Hp]]]]]]]. exists l. auto.
  - intros Hplain Herr fuel evs rvs fsm' tr Hrun.
    destruct (feed_invariant g
                (fun x => in_plain_state g x
                          /\ errorState x = errorState m))
      with (fuel := fuel) (evs := evs) (m := m) (rvs := rvs)
           (fsm' := fsm') (tr := tr) as [m' [-> [Hm' _]]]; auto.
    + intros m0 ev rv m1 tr1 [Hp0 He0] Ho.
      split; [|rewrite <- He0; eapply outcome_errorState; eauto].
      destruct (outcome_current _ _ _ _ _ _ Ho)
        as [-> | [[Hc _] | [c [l [_ [-> [Hl _]]]]]]]; trivial.
      * intros x Hx. apply Herr. congruence.
      * intros x Hx. cbn in Hx. congruence.
    + eauto.
Qed.

Lemma composite_never_current_witness :
  exists m',
    Some (mkStateMachine (Some 6) (Some 3) (Some NestedTest.sE)) = Some m'
    /\ in_plain_state NestedTest.states m'.
Proof.
  refine (proj2 (composite_never_current NestedTest.states
                   (NestedTest.machine_at 1)) _ _ 4 NestedTest.events
            _ _ _ _).
  - intros c [= <-]. reflexivity.
  - intros e [= <-]. reflexivity.
  - vm_compute. reflexivity.
Defined.

(** X9. The actions of one call come in a fixed order, each at most once
    and all with the event of the call: the exit action of the state the
    machine was in, with that state's data; then the transition action,
    with the data of the old and of the new current state; then the entry
    action of the new current state, with its data.  Unless the error
    state was reached, exit and entry actions are invoked only when the
    current state changes. *)
Theorem calls_in_order (fuel : nat) (g : graph) (m : stateMachine)
  (ev : event) rv fsm' tr :
  stateM_handleEvent fuel g (Some m) (Some ev) = Some (rv, fsm', tr) ->
  exists ex ac en,
    tr = ex ++ ac ++ en
    /\ (ex = []
        \/ exists c f, currentState m = Some c /\ exitAction (g c) = Some f
                       /\ ex = [ExitCall f (data (g c)) ev])
    /\ (ac = []
        \/ exists c l f, currentState m = Some c
                         /\ stateM_currentState fsm' = Some l
                         /\ ac = [ActionCall f (data (g c)) ev (data (g l))])
    /\ (en = []
        \/ exists l f, stateM_currentState fsm' = Some l
                       /\ entryAction (g l) = Some f
                       /\ en = [EntryCall f (data (g l)) ev])
    /\ (rv <> stateM_errorStateReached ->
        ex <> [] \/ en <> [] ->
        stateM_currentState fsm' <> currentState m).
Proof.
  intros Hrun.
  destruct (handleEvent_outcome _ _ _ _ _ _ _ Hrun) as [m' [-> Ho]].
  cbn [stateM_currentState].
  assert (Hfall :
    exists ex ac en,
      snd (goToErrorState g m ev) = ex ++ ac ++ en
      /\ (ex = []
          \/ exists c f, currentState m = Some c /\ exitAction (g c) = Some f
                         /\ ex = [ExitCall f (data (g c)) ev])
      /\ (ac = []
          \/ exists c l f,
               currentState m = Some c
               /\ currentState (fst (goToErrorState g m ev)) = Some l
               /\ ac = [ActionCall f (data (g c)) ev (data (g l))])
      /\ (en = []
          \/ exists l f,
               currentState (fst (goToErrorState g m ev)) = Some l
               /\ entryAction (g l) = Some f
               /\ en = [EntryCall f (data (g l)) ev])
      /\ (stateM_errorStateReached <> stateM_errorStateReached ->
          ex <> [] \/ en <> [] ->
          currentState (fst (goToErrorState g m ev)) <> currentState m)).
  { exists [], [], (snd (goToErrorState g m ev)).
    split; [reflexivity|]. split; [auto|]. split; [auto|].
    split; [|intros H; now destruct H].
    cbn. destruct (errorState m) as [e|]; [|auto].
    unfold call_entry. destruct (entryAction (g e)) as [f|] eqn:Hf; [|auto].
    right. exists e, f. auto. }
  destruct Ho as [Hc | c Hc Hz | c Hc Hz Hr | c t Hc Hz Hr Hn
                  | c t n l Hc Hz Hr Hn Hl]; trivial.
  - exists [], [], []. repeat split; auto. intros _ [H | H]; now destruct H.
  - exists [], [], []. repeat split; auto. intros _ [H | H]; now destruct H.
  - unfold commit_calls.
    exists (if l =? c then [] else call_exit (g c) ev),
           (call_action t (data (g c)) ev (data (g l))),
           (if l =? c then [] else call_entry (g l) ev).
    split; [reflexivity|]. cbn [moved currentState].
    split; [|split; [|split]].
    + destruct (l =? c); [auto|]. unfold call_exit.
      destruct (exitAction (g c)) as [f|] eqn:Hf; [|auto].
      right. exists c, f. auto.
    + unfold call_action. destruct (action t) as [f|]; [|auto].
      right. exists c, l, f. auto.
    + destruct (l =? c); [auto|]. unfold call_entry.
      destruct (entryAction (g l)) as [f|] eqn:Hf; [|auto].
      right. exists l, f. auto.
    + intros _ Hfired. destruct (l =? c) eqn:Hlc.
      * destruct Hfired as [H | H]; now destruct H.
      * apply Nat.eqb_neq in Hlc. congruence.
Qed.

Lemma calls_in_order_witness :
  exists ex ac en,
    [ExitCall NestedTest.exitFn 5%Z (NestedTest.key NestedTest.ch_star);
     ActionCall NestedTest.transFn 5%Z
       (NestedTest.key NestedTest.ch_star) 4%Z;
     EntryCall NestedTest.entryFn 4%Z (NestedTest.key NestedTest.ch_star)]
    = ex ++ ac ++ en
    /\ (ex = []
        \/ exists c f,
             currentState (NestedTest.machine_at 5) = Some c
             /\ exitAction (NestedTest.states c) = Some f
             /\ ex = [ExitCall f (data (NestedTest.states c))
                        (NestedTest.key NestedTest.ch_star)])
    /\ (ac = []
        \/ exists c l f,
             currentState (NestedTest.machine_at 5) = Some c
             /\ stateM_currentState
                  (Some (mkStateMachine (Some 4) (Some 5)
                           (Some NestedTest.sE))) = Some l
             /\ ac = [ActionCall f (data (NestedTest.states c))
                        (NestedTest.key NestedTest.ch_star)
                        (data (NestedTest.states l))])
    /\ (en = []
        \/ exists l f,
             stateM_currentState
               (Some (mkStateMachine (Some 4) (Some 5)
                        (Some NestedTest.sE))) = Some l
             /\ entryAction (NestedTest.states l) = Some f
             /\ en = [EntryCall f (data (NestedTest.states l))
                        (NestedTest.key NestedTest.ch_star)])
    /\ (stateM_stateChanged <> stateM_errorStateReached ->
        ex <> [] \/ en <> [] ->
        stateM_currentState
          (Some (mkStateMachine (Some 4) (Some 5) (Some NestedTest.sE)))
        <> currentState (NestedTest.machine_at 5)).
Proof.
  apply (calls_in_order 4 NestedTest.states (NestedTest.machine_at 5)
           (NestedTest.key NestedTest.ch_star)).
  reflexivity.
Defined.

(** ** Termination *)

Lemma outcome_exists (g : graph) (m : stateMachine) (ev : event) :
  well_founded_graph g -> exists rv m' tr, outcome g m ev rv m' tr.
Proof.
  intros [Hroot Hland].
  destruct (currentState m) as [c|] eqn:Hc.
  - destruct (Nat.eq_dec (numTransitions (g c)) 0) as [Hz | Hz].
    + do 3 eexists. now apply outcome_final with (c := c).
    + destruct (rooted_resolves g ev c (Hroot c)) as [[t|] Hr].
      * destruct (nextState t) as [n|] eqn:Hn.
        -- destruct (Hland n) as [l Hl]. do 3 eexists.
           now apply outcome_commit with (c := c) (t := t) (n := n) (l := l).
        -- do 3 eexists. now apply outcome_unset with (c := c) (t := t).
      * do 3 eexists. now apply outcome_unmatched with (c := c).
  - do 3 eexists. now apply outcome_absent.
Qed.

(** X10. On a graph whose parent links and entry links are well founded,
    every call of [stateM_handleEvent] returns, and so does every
    sequence of calls: some amount of fuel suffices, and any larger
    amount gives the same result. *)
Theorem handleEvent_terminates (g : graph) :
  well_founded_graph g ->
  (forall m ev, exists k rv m' tr, forall fuel, k <= fuel ->
     stateM_handleEvent fuel g (Some m) (Some ev) = Some (rv, Some m', tr))
  /\ (forall evs m, exists k rvs m' tr, forall fuel, k <= fuel ->
        feed fuel g (Some m) evs = Some (rvs, Some m', tr)).
Proof.
  intros Hwf.
  assert (Hone : forall m ev, exists k rv m' tr, forall fuel, k <= fuel ->
            stateM_handleEvent fuel g (Some m) (Some ev)
            = Some (rv, Some m', tr)).
  { intros m ev. destruct (outcome_exists g m ev Hwf) as [rv [m' [tr Ho]]].
    destruct (outcome_handleEvent _ _ _ _ _ _ Ho) as [k Hk].
    exists k, rv, m', tr. exact Hk. }
  split; [exact Hone|].
  induction evs as [|e evs IH]; intros m.
  - exists 0, [], m, []. reflexivity.
  - destruct (Hone m e) as [k1 [rv [m1 [tr1 H1]]]].
    destruct (IH m1) as [k2 [rvs [m2 [tr2 H2]]]].
    exists (Nat.max k1 k2), (rv :: rvs), m2, (tr1 ++ tr2).
    intros fuel Hf. cbn [feed]. rewrite H1, H2 by lia. reflexivity.
Qed.

Lemma NestedTest_well_founded : well_founded_graph NestedTest.states.
Proof.
  split; intros s.
  - do 12 (destruct s as [|s];
           [solve [repeat first [apply rooted_top; reflexivity
                                | eapply rooted_child; [reflexivity|]]]|]).
    apply rooted_top. reflexivity.
  - do 12 (destruct s as [|s];
           [eexists;
            solve [repeat first [apply lands_here; reflexivity
                                | eapply lands_down; [reflexivity|]]]|]).
    eexists. apply lands_here. reflexivity.
Qed.

Lemma handleEvent_terminates_witness :
  exists k rvs m' tr, forall fuel, k <= fuel ->
    feed fuel NestedTest.states (Some (NestedTest.machine_at 1))
      NestedTest.events = Some (rvs, Some m', tr).
Proof.
  exact (proj2 (handleEvent_terminates NestedTest.states
                  NestedTest_well_founded)
           NestedTest.events (NestedTest.machine_at 1)).
Defined.

Lemma self_parent_never_resolves (r : option transition) :
  ~ resolves Cyclic.states Cyclic.ev0 1 r.
Proof.
  intros H. remember 1 as s eqn:Es.
  induction H as [s t Ht | s Ht Hp | s p r Ht Hp _ IH]; subst s.
  - discriminate Ht.
  - discriminate Hp.
  - injection Hp as <-. now apply IH.
Qed.

Lemma self_entry_never_lands (l : addr) : ~ lands Cyclic.states 3 l.
Proof.
  intros H. remember 3 as s eqn:Es.
  induction H as [s Hs | s e l Hs _ IH]; subst s.
  - discriminate Hs.
  - injection Hs as <-. now apply IH.
Qed.

(** X11. The two loops can run forever.  When the search up the parent
    links neither finds a matching transition nor reaches a state without
    parent (the links cycle), or when the matched transition's next state
    starts an entry chain that never reaches a state without entry state,
    [stateM_handleEvent] does not return, whatever the fuel. *)
Theorem handleEvent_diverges (g : graph) (m : stateMachine) (ev : event)
  (c : addr) :
  currentState m = Some c ->
  numTransitions (g c) <> 0 ->
  (forall r, ~ resolves g ev c r)
  \/ (exists t n, resolves g ev c (Some t) /\ nextState t = Some n
                  /\ forall l, ~ lands g n l) ->
  forall fuel, stateM_handleEvent fuel g (Some m) (Some ev) = None.
Proof.
  intros Hc Hz Hcycle fuel.
  destruct (stateM_handleEvent fuel g (Some m) (Some ev))
    as [[[rv fsm'] tr]|] eqn:Hrun; [|reflexivity].
  exfalso.
  destruct (handleEvent_outcome _ _ _ _ _ _ _ Hrun) as [m' [_ Ho]].
  destruct Ho as [Hc' | c' Hc' Hz' | c' Hc' Hz' Hr | c' t Hc' Hz' Hr Hn
                  | c' t n l Hc' Hz' Hr Hn Hl];
    try congruence;
    assert (c' = c) by congruence; subst c'.
  - destruct Hcycle as [Hno | [t [n [Hr' _]]]].
    + exact (Hno _ Hr).
    + pose proof (resolves_functional _ _ _ _ _ Hr Hr'). discriminate.
  - destruct Hcycle as [Hno | [t' [n [Hr' [Hn' _]]]]].
    + exact (Hno _ Hr).
    + pose proof (resolves_functional _ _ _ _ _ Hr Hr') as E.
      injection E as <-. congruence.
  - destruct Hcycle as [Hno | [t' [n' [Hr' [Hn' Hnl]]]]].
    + exact (Hno _ Hr).
    + pose proof (resolves_functional _ _ _ _ _ Hr Hr') as E.
      injection E as <-. assert (n' = n) by congruence. subst n'.
      exact (Hnl l Hl).
Qed.

Lemma handleEvent_diverges_witness :
  (forall fuel,
     stateM_handleEvent fuel Cyclic.states
       (Some (mkStateMachine (Some 1) None None)) (Some Cyclic.ev0) = None)
  /\ (forall fuel,
        stateM_handleEvent fuel Cyclic.states
          (Some (mkStateMachine (Some 2) None None)) (Some Cyclic.ev0)
        = None).
Proof.
  split.
  - apply (handleEvent_diverges Cyclic.states
             (mkStateMachine (Some 1) None None) Cyclic.ev0 1).
    + reflexivity.
    + vm_compute. lia.
    + left. exact self_parent_never_resolves.
  - apply (handleEvent_diverges Cyclic.states
             (mkStateMachine (Some 2) None None) Cyclic.ev0 2).
    + reflexivity.
    + vm_compute. lia.
    + right. exists (mkTransition 0%Z 0%Z None None (Some 3)), 3.
      split; [apply resolves_here; reflexivity|].
      split; [reflexivity|]. exact self_entry_never_lands.
Defined.

(** ** Presence of the current state *)

Lemma anchored_step (g : graph) (m : stateMachine) (ev : event) rv m' tr :
  anchored m ->
  outcome g m ev rv m' tr ->
  anchored m'
  /\ ((rv = stateM_noStateChange /\ m' = m)
      \/ (rv <> stateM_noStateChange /\ previousState m' <> None)).
Proof.
  intros [[c0 Hc0] [e He]] Ho.
  pose proof (outcome_errorState _ _ _ _ _ _ Ho) as Herr.
  destruct Ho as [Hc | c Hc Hz | c Hc Hz Hr | c t Hc Hz Hr Hn
                  | c t n l Hc Hz Hr Hn Hl].
  - congruence.
  - split; [split; eauto|]. auto.
  - split; [split; eauto|]. auto.
  - split.
    + split; [exists e; cbn; exact He | exists e; cbn; exact He].
    + right. split; [discriminate|]. cbn. congruence.
  - split.
    + split; [exists l; reflexivity | exists e; cbn; exact He].
    + right. split; [apply classify_not_noStateChange|]. cbn. discriminate.
Qed.

Lemma feed_anchored (g : graph) (fuel : nat) (evs : list event) :
  forall m rvs fsm' tr,
    anchored m ->
    feed fuel g (Some m) evs = Some (rvs, fsm', tr) ->
    exists m', fsm' = Some m' /\ anchored m'
      /\ (previousState m' = None <->
          previousState m = None
          /\ Forall (fun rv => rv = stateM_noStateChange) rvs).
Proof.
  induction evs as [|e evs IH]; intros m rvs fsm' tr Hm; cbn [feed].
  - intros [= <- <- _]. exists m. split; [reflexivity|]. split; [exact Hm|].
    split; [intros H; split; [exact H | constructor] | intros [H _]; exact H].
  - destruct (stateM_handleEvent fuel g (Some m) (Some e))
      as [[[rv fsm1] tr1]|] eqn:H1; [|discriminate].
    destruct (handleEvent_outcome _ _ _ _ _ _ _ H1) as [m1 [-> Ho]].
    destruct (feed fuel g (Some m1) evs) as [[[rvs2 fsm2] tr2]|] eqn:H2;
      [|discriminate].
    intros [= <- <- _].
    destruct (anchored_step _ _ _ _ _ _ Hm Ho) as [Hm1 Hstep].
    destruct (IH _ _ _ _ Hm1 H2) as [m' [-> [Hm' Hprev]]].
    exists m'. split; [reflexivity|]. split; [exact Hm'|].
    rewrite Hprev. destruct Hstep as [[-> ->] | [Hrv Hp1]].
    + split.
      * intros [Hp Hall]. split; [exact Hp|]. constructor; auto.
      * intros [Hp Hall]. split; [exact Hp|]. now inversion Hall.
    + split.
      * intros [Hp _]. contradiction.
      * intros [_ Hall]. inversion Hall; subst. contradiction.
Qed.

(** X12. A machine initialised with a present initial state and a present
    error state always has a current state: after any sequence of events
    [stateM_currentState] is present and [stateM_stopped] has a defined
    result. *)
Theorem stopped_defined_along_runs (g : graph) (m0 : stateMachine)
  (i e : addr) (fuel : nat) (evs : list event) rvs fsm' tr :
  feed fuel g (fst (stateM_init (Some m0) (Some i) (Some e))) evs
  = Some (rvs, fsm', tr) ->
  (exists c, stateM_currentState fsm' = Some c)
  /\ (exists b, stateM_stopped g fsm' = Def b).
Proof.
  cbn [stateM_init fst]. intros Hrun.
  assert (Ha : anchored {| currentState := Some i;
                           previousState := None;
                           errorState := Some e |})
    by (split; eexists; reflexivity).
  destruct (feed_anchored g fuel evs _ _ _ _ Ha Hrun)
    as [m' [-> [[[c Hc] _] _]]].
  cbn. rewrite Hc. eauto.
Qed.

Lemma stopped_defined_along_runs_witness :
  (exists c,
     stateM_currentState
       (Some (mkStateMachine (Some 6) (Some 3) (Some NestedTest.sE)))
     = Some c)
  /\ (exists b,
        stateM_stopped NestedTest.states
          (Some (mkStateMachine (Some 6) (Some 3) (Some NestedTest.sE)))
        = Def b).
Proof.
  apply (stopped_defined_along_runs NestedTest.states
           (mkStateMachine None None None) 1 NestedTest.sE 4
           NestedTest.events
           (repeat stateM_stateChanged 3 ++ [stateM_stateLoopSelf]
            ++ repeat stateM_stateChanged 13 ++ [stateM_finalStateReached])
           (Some (mkStateMachine (Some 6) (Some 3) (Some NestedTest.sE)))
           (match feed 4 NestedTest.states NestedTest.fsm0 NestedTest.events
            with Some (_, _, tr) => tr | None => [] end)).
  vm_compute. reflexivity.
Defined.

(** X13. For a machine initialised with a present initial state and a
    present error state, [stateM_previousState] is absent exactly as long
    as every event so far was answered with no-state-change. *)
Theorem previousState_absent_iff_idle (g : graph) (m0 : stateMachine)
  (i e : addr) (fuel : nat) (evs : list event) rvs fsm' tr :
  feed fuel g (fst (stateM_init (Some m0) (Some i) (Some e))) evs
  = Some (rvs, fsm', tr) ->
  (stateM_previousState fsm' = None <->
   Forall (fun rv => rv = stateM_noStateChange) rvs).
Proof.
  cbn [stateM_init fst]. intros Hrun.
  assert (Ha : anchored {| currentState := Some i;
                           previousState := None;
                           errorState := Some e |})
    by (split; eexists; reflexivity).
  destruct (feed_anchored g fuel evs _ _ _ _ Ha Hrun)
    as [m' [-> [_ Hprev]]].
  cbn [stateM_previousState]. rewrite Hprev. cbn. tauto.
Qed.

Lemma previousState_absent_iff_idle_witness :
  stateM_previousState (Some (mkStateMachine (Some 1) None (Some 0))) = None
  <-> Forall (fun rv => rv = stateM_noStateChange)
        [stateM_noStateChange; stateM_noStateChange].
Proof.
  apply (previousState_absent_iff_idle NestedTest.states
           (mkStateMachine None None None) 1 NestedTest.sE 3
           [NestedTest.key NestedTest.ch_k; NestedTest.key NestedTest.ch_j]
           [stateM_noStateChange; stateM_noStateChange]
           (Some (mkStateMachine (Some 1) None (Some 0))) []).
  reflexivity.
Defined.

(** ** Shadowed transitions *)

(** X14. An unguarded transition shadows every later transition of its
    state for its event type: for an event of that type [getTransition]
    returns a transition at its index or before, never a later one and
    never none. *)
Theorem unguarded_shadows (st : state) (ev : event) (i : nat)
  (t : transition) :
  nth_error (transitions st) i = Some t ->
  guard t = None ->
  eventType t = type ev ->
  exists j t', j <= i /\ nth_error (transitions st) j = Some t'
               /\ getTransition st ev = Some t'.
Proof.
  unfold getTransition. generalize (transitions st) as ts.
  induction i as [|i IH]; intros [|a ts] Hnth Hg Ht; try discriminate.
  - injection Hnth as ->. exists 0, t. simpl.
    rewrite Ht, Z.eqb_refl, Hg. auto.
  - simpl in Hnth. destruct (IH ts Hnth Hg Ht) as [j [t' [Hj [Hn Hs]]]].
    simpl. destruct (eventType a =? type ev)%Z.
    + destruct (guard a) as [gd|].
      * destruct (gd (condition a) ev).
        -- exists 0, a. repeat split; auto. lia.
        -- exists (S j), t'. repeat split; auto. lia.
      * exists 0, a. repeat split; auto. lia.
    + exists (S j), t'. repeat split; auto. lia.
Qed.

(** In state 5 of the nested test the unguarded transition answers every
    key. *)
Lemma unguarded_shadows_witness :
  exists j t', j <= 0
    /\ nth_error (transitions (NestedTest.states 5)) j = Some t'
    /\ getTransition (NestedTest.states 5) (NestedTest.key NestedTest.ch_k)
       = Some t'.
Proof.
  apply (unguarded_shadows (NestedTest.states 5)
           (NestedTest.key NestedTest.ch_k) 0 (NestedTest.always 10));
    reflexivity.
Defined.

(** * The earlier revision *)

Lemma resolves_at_resolves (g : graph) (ev : event) (s : addr)
  (r : option (addr * transition)) :
  resolves_at g ev s r -> resolves g ev s (option_map snd r).
Proof.
  induction 1 as [s t Ht | s Ht Hp | s p r Ht Hp _ IH]; simpl.
  - now apply resolves_here.
  - now apply resolves_root.
  - eapply resolves_up; eauto.
Qed.

Lemma earlier_scanNext (ts : list transition) (g : graph)
  (fsm : stateMachine) (s : addr) (ev : event) :
  Earlier.scanNext ts g fsm s ev =
  match scanTransitions ts ev with
  | Some t => Earlier.leave g fsm s ev t
  | None => (None, fsm, [])
  end.
Proof.
  induction ts as [|t rest IH]; simpl; [reflexivity|].
  destruct (eventType t =? type ev)%Z; [|exact IH].
  destruct (guard t) as [gd|]; [|reflexivity].
  destruct (gd (condition t) ev); simpl; [reflexivity | exact IH].
Qed.

Lemma earlier_goToNextState (g : graph) (fsm : stateMachine) (s : addr)
  (ev : event) :
  Earlier.goToNextState g fsm s ev =
  match getTransition (g s) ev with
  | Some t => Earlier.leave g fsm s ev t
  | None => (None, fsm, [])
  end.
Proof. apply earlier_scanNext. Qed.

Lemma ptr_eqb_neq (p q : option addr) : ptr_eqb p q = false <-> p <> q.
Proof.
  split.
  - intros H E. apply ptr_eqb_eq in E. congruence.
  - intros H. destruct (ptr_eqb p q) eqn:E; [|reflexivity].
    apply ptr_eqb_eq in E. contradiction.
Qed.

(** The loop of the earlier revision from a state that is not the error
    state: bubbling up to the state [s] that holds the first match. *)
Lemma earlier_dispatch (g : graph) (m : stateMachine) (ev : event)
  (c s0 : addr) (r : option (addr * transition)) :
  currentState m = Some c ->
  errorState m <> Some c ->
  resolves_at g ev s0 r ->
  exists k, forall fuel, k <= fuel ->
    Earlier.dispatch fuel g m ev s0 =
    match r with
    | None => Some (stateM_noStateChange, m, [])
    | Some (s, t) =>
        let '(next, fsm1, tr) := Earlier.leave g m s ev t in
        if ptr_eqb (currentState fsm1) (errorState fsm1)
        then Some (stateM_errorStateReached, fsm1, tr)
        else if ptr_eqb next (currentState fsm1)
        then Some (stateM_stateLoopSelf, fsm1, tr)
        else
          match next with
          | None => None
          | Some n =>
              let '(rv, fsm2, tr') := Earlier.enter g fsm1 n ev in
              Some (rv, fsm2, tr ++ tr')
          end
    end.
Proof.
  intros Hc He.
  assert (Hne : ptr_eqb (currentState m) (errorState m) = false).
  { apply ptr_eqb_neq. congruence. }
  induction 1 as [s t Ht | s Ht Hp | s p r Ht Hp _ [k Hk]].
  - exists 1. intros [|fuel] Hf; [lia|]. cbn [Earlier.dispatch].
    rewrite earlier_goToNextState, Ht.
    destruct (Earlier.leave g m s ev t) as [[next fsm1] tr] eqn:Hl.
    destruct (ptr_eqb (currentState fsm1) (errorState fsm1)) eqn:E1;
      [reflexivity|].
    destruct (ptr_eqb next (currentState fsm1)) eqn:E2; [reflexivity|].
    destruct next as [n|]; [reflexivity|].
    (* a transition without next state falls back to the error state *)
    exfalso. unfold Earlier.leave in Hl.
    destruct (nextState t); [discriminate|].
    cbn in Hl. injection Hl as <- _. cbn in E1.
    apply ptr_eqb_neq in E1. now apply E1.
  - exists 1. intros [|fuel] Hf; [lia|]. cbn [Earlier.dispatch].
    rewrite earlier_goToNextState, Ht, Hne, Hc, Hp. reflexivity.
  - exists (S k). intros [|fuel] Hf; [lia|]. cbn [Earlier.dispatch].
    rewrite earlier_goToNextState, Ht, Hne, Hc, Hp.
    cbn [ptr_eqb]. rewrite Hk by lia.
    destruct r as [[s' t]|]; [|reflexivity].
    destruct (Earlier.leave g m s' ev t) as [[next fsm1] tr].
    destruct (ptr_eqb (currentState fsm1) (errorState fsm1)); [reflexivity|].
    destruct (ptr_eqb next (currentState fsm1)); [reflexivity|].
    destruct next as [n|]; [|reflexivity].
    destruct (Earlier.enter g fsm1 n ev) as [[rv fsm2] tr']. reflexivity.
Qed.

Lemma earlier_handleEvent_dispatch (fuel : nat) (g : graph)
  (m : stateMachine) (c : addr) (ev : event) :
  currentState m = Some c ->
  Earlier.stateM_handleEvent fuel g (Some m) (Some ev) =
  match Earlier.dispatch fuel g m ev c with
  | Some (rv, m', tr) => Some (rv, Some m', tr)
  | None => None
  end.
Proof. intros Hc. unfold Earlier.stateM_handleEvent. now rewrite Hc. Qed.

(** X15. In the earlier revision an event that no ancestor matches is a
    no-op from every state but the error state, and so from a state
    without transitions: no-state-change, the machine as before, no
    action. *)
Theorem earlier_unmatched_is_noop (g : graph) (m : stateMachine)
  (ev : event) (c : addr) :
  currentState m = Some c ->
  errorState m <> Some c ->
  resolves_at g ev c None ->
  exists k, forall fuel, k <= fuel ->
    Earlier.stateM_handleEvent fuel g (Some m) (Some ev) =
    Some (stateM_noStateChange, Some m, []).
Proof.
  intros Hc He Hr.
  destruct (earlier_dispatch g m ev c c None Hc He Hr) as [k Hk].
  exists k. intros fuel Hf.
  rewrite (earlier_handleEvent_dispatch _ _ _ _ _ Hc), Hk by exact Hf.
  reflexivity.
Qed.

Lemma earlier_unmatched_is_noop_witness :
  exists k, forall fuel, k <= fuel ->
    Earlier.stateM_handleEvent fuel NestedTest.states
      (Some (NestedTest.machine_at 1))
      (Some (NestedTest.key NestedTest.ch_k)) =
    Some (stateM_noStateChange, Some (NestedTest.machine_at 1), []).
Proof.
  apply (earlier_unmatched_is_noop NestedTest.states
           (NestedTest.machine_at 1) (NestedTest.key NestedTest.ch_k) 1).
  - reflexivity.
  - discriminate.
  - eapply resolves_at_up; [reflexivity | reflexivity |].
    apply resolves_at_root; reflexivity.
Defined.

(** X16. A committed transition in the earlier revision, from a current
    state [c] that is not the designated error state.  The transition [t]
    is found by bubbling in the state [s], possibly an ancestor of [c],
    which may itself have no transition; its next state [n] is not [c].
    Then the exit action invoked is that of [s] (not of [c]), and none
    when [n] is [s] itself; the transition action gets the data of [s];
    the machine lands on the entry state of [n], following one link only,
    and records [n] as previous state when it did; the landing state's
    entry action is invoked even when the landing state is [c] again. *)
Theorem earlier_commit (g : graph) (m : stateMachine) (ev : event)
  (c s : addr) (t : transition) (n : addr) :
  currentState m = Some c ->
  errorState m <> Some c ->
  resolves_at g ev c (Some (s, t)) ->
  nextState t = Some n ->
  n <> c ->
  exists k, forall fuel, k <= fuel ->
    Earlier.stateM_handleEvent fuel g (Some m) (Some ev) =
    Some (if ptr_eqb (Some (Earlier.landing g n)) (errorState m)
          then stateM_errorStateReached
          else if numTransitions (g (Earlier.landing g n)) =? 0
          then stateM_finalStateReached
          else stateM_stateChanged,
          Some {| currentState := Some (Earlier.landing g n);
                  previousState :=
                    match entryState (g n) with
                    | Some _ => Some n
                    | None => Some c
                    end;
                  errorState := errorState m |},
          (if n =? s then [] else Earlier.run_exit (g s) ev)
          ++ Earlier.run_action t (g s) ev
          ++ Earlier.run_entry (g (Earlier.landing g n)) ev).
Proof.
  intros Hc He Hr Hn Hnc.
  destruct (earlier_dispatch g m ev c c _ Hc He Hr) as [k Hk].
  exists k. intros fuel Hf.
  rewrite (earlier_handleEvent_dispatch _ _ _ _ _ Hc), Hk by exact Hf.
  unfold Earlier.leave. rewrite Hn.
  assert (Hne : ptr_eqb (currentState m) (errorState m) = false).
  { apply ptr_eqb_neq. congruence. }
  rewrite Hne, Hc. cbn [ptr_eqb].
  apply Nat.eqb_neq in Hnc. rewrite Hnc.
  unfold Earlier.enter, Earlier.landing. rewrite Hc.
  destruct (entryState (g n)) as [e|], (n =? s);
    cbn [currentState previousState errorState negb];
    rewrite <- app_assoc; reflexivity.
Qed.

(** The final child state 1 of the boundary graph bubbles to its parent
    2: the exit action and the data are those of state 2. *)
Lemma earlier_commit_witness :
  exists k, forall fuel, k <= fuel ->
    Earlier.stateM_handleEvent fuel Boundary.states
      (Some Boundary.in_child) (Some Boundary.ev0) =
    Some (stateM_finalStateReached,
          Some (mkStateMachine (Some 3) (Some 1) (Some 0)),
          [Earlier.Exit 20 2%Z Boundary.ev0;
           Earlier.Action 30 2%Z Boundary.ev0;
           Earlier.Entry 10 3%Z Boundary.ev0]).
Proof.
  apply (earlier_commit Boundary.states Boundary.in_child Boundary.ev0
           1 2 (Boundary.go 3) 3).
  - reflexivity.
  - discriminate.
  - eapply resolves_at_up; [reflexivity | reflexivity |].
    apply resolves_at_here. reflexivity.
  - reflexivity.
  - lia.
Defined.

(** X17. A self-transition in the earlier revision, from a current state
    that is not the designated error state: when the next state of the
    transition found is the current state, the call returns
    looped-to-itself and leaves the machine untouched, the previous state
    included; the transition action is invoked, and also the exit action
    of the state holding the transition when that is an ancestor. *)
Theorem earlier_self_loop (g : graph) (m : stateMachine) (ev : event)
  (c s : addr) (t : transition) :
  currentState m = Some c ->
  errorState m <> Some c ->
  resolves_at g ev c (Some (s, t)) ->
  nextState t = Some c ->
  exists k, forall fuel, k <= fuel ->
    Earlier.stateM_handleEvent fuel g (Some m) (Some ev) =
    Some (stateM_stateLoopSelf, Some m,
          (if c =? s then [] else Earlier.run_exit (g s) ev)
          ++ Earlier.run_action t (g s) ev).
Proof.
  intros Hc He Hr Hn.
  destruct (earlier_dispatch g m ev c c _ Hc He Hr) as [k Hk].
  exists k. intros fuel Hf.
  rewrite (earlier_handleEvent_dispatch _ _ _ _ _ Hc), Hk by exact Hf.
  unfold Earlier.leave. rewrite Hn.
  assert (Hne : ptr_eqb (currentState m) (errorState m) = false).
  { apply ptr_eqb_neq. congruence. }
  rewrite Hne, Hc. cbn [ptr_eqb]. rewrite Nat.eqb_refl.
  destruct (c =? s); reflexivity.
Qed.

(** In the idle state of the keyboard example an unrecognised character
    is answered by the group state, whose exit action runs. *)
Lemma earlier_self_loop_witness :
  exists k, forall fuel, k <= fuel ->
    Earlier.stateM_handleEvent fuel Keyboard.states
      (Some (mkStateMachine (Some Keyboard.idleState) None
               (Some Keyboard.errorState)))
      (Some (Keyboard.key 120%Z)) =
    Some (stateM_stateLoopSelf,
          Some (mkStateMachine (Some Keyboard.idleState) None
                  (Some Keyboard.errorState)),
          [Earlier.Exit Keyboard.printExitMsg 1%Z (Keyboard.key 120%Z);
           Earlier.Action Keyboard.printUnrecognisedChar 1%Z
             (Keyboard.key 120%Z)]).
Proof.
  apply (earlier_self_loop Keyboard.states
           (mkStateMachine (Some Keyboard.idleState) None
              (Some Keyboard.errorState))
           (Keyboard.key 120%Z) Keyboard.idleState Keyboard.groupState
           (mkTransition Keyboard.Event_keyboard 0%Z None
              (Some Keyboard.printUnrecognisedChar)
              (Some Keyboard.idleState))).
  - reflexivity.
  - discriminate.
  - eapply resolves_at_up; [reflexivity | reflexivity |].
    apply resolves_at_here. reflexivity.
  - reflexivity.
Defined.



Lemma earlier_leave_machine (g : graph) (m : stateMachine) (s : addr)
  (ev : event) (t : transition) :
  snd (fst (Earlier.leave g m s ev t)) = m
  \/ snd (fst (Earlier.leave g m s ev t))
     = {| currentState := errorState m;
          previousState := currentState m;
          errorState := errorState m |}.
Proof.
  unfold Earlier.leave. destruct (nextState t); cbn; auto.
Qed.

Lemma earlier_sticky_step (fuel : nat) (g : graph) (m : stateMachine)
  (ev : event) :
  currentState m = errorState m ->
  exists m' tr,
    Earlier.stateM_handleEvent (S fuel) g (Some m) (Some ev) =
    Some (stateM_errorStateReached, Some m', tr)
    /\ currentState m' = currentState m
    /\ errorState m' = errorState m.
Proof.
  intros Herr. unfold Earlier.stateM_handleEvent.
  destruct (currentState m) as [c|] eqn:Hc.
  - cbn [Earlier.dispatch]. rewrite earlier_goToNextState.
    assert (Hstay : forall fsm1,
              fsm1 = m
              \/ fsm1 = {| currentState := errorState m;
                           previousState := currentState m;
                           errorState := errorState m |} ->
              ptr_eqb (currentState fsm1) (errorState fsm1) = true
              /\ currentState fsm1 = Some c
              /\ errorState fsm1 = errorState m).
    { intros fsm1 [-> | ->]; cbn; rewrite ?Hc, <- ?Herr;
        repeat split; trivial; now apply ptr_eqb_eq. }
    destruct (getTransition (g c) ev) as [t|].
    + pose proof (earlier_leave_machine g m c ev t) as Hm.
      destruct (Earlier.leave g m c ev t) as [[next fsm1] tr].
      cbn in Hm. destruct (Hstay fsm1 Hm) as [-> [H1 H2]].
      exists fsm1, tr. auto.
    + destruct (Hstay m (or_introl eq_refl)) as [-> [H1 H2]].
      exists m, []. rewrite Hc. auto.
  - cbn. rewrite <- Herr. eexists _, _. split; [reflexivity|]. auto.
Qed.

(** X19. In the earlier revision the error state is never left: once the
    current state is the designated error state, every event is answered
    with error-state-reached and the current state stays the error state,
    even if the error state has transitions that match. *)
Theorem earlier_error_state_is_sticky (g : graph) (m : stateMachine) :
  currentState m = errorState m ->
  forall fuel evs, exists m' tr,
    Earlier.feed (S fuel) g (Some m) evs =
    Some (repeat stateM_errorStateReached (length evs), Some m', tr)
    /\ currentState m' = errorState m
    /\ errorState m' = errorState m.
Proof.
  intros Herr fuel evs. revert m Herr.
  induction evs as [|e evs IH]; intros m Herr.
  - exists m, []. auto.
  - destruct (earlier_sticky_step fuel g m e Herr) as [m1 [tr1 [H1 [Hc1 He1]]]].
    destruct (IH m1) as [m2 [tr2 [H2 [Hc2 He2]]]]; [congruence|].
    exists m2, (tr1 ++ tr2). cbn [Earlier.feed length repeat].
    rewrite H1, H2. repeat split; congruence.
Qed.

(** With state 4 of the boundary graph as current state and error state,
    its self-transition runs its action but the answer is
    error-state-reached. *)
Lemma earlier_error_state_is_sticky_witness :
  exists m' tr,
    Earlier.feed 2 Boundary.states (Some Boundary.in_error_loop)
      [Boundary.ev0; Boundary.ev0] =
    Some ([stateM_errorStateReached; stateM_errorStateReached], Some m', tr)
    /\ currentState m' = Some 4
    /\ errorState m' = Some 4.
Proof.
  apply (earlier_error_state_is_sticky Boundary.states
           Boundary.in_error_loop eq_refl 1 [Boundary.ev0; Boundary.ev0]).
Defined.

(** ** The two revisions side by side *)

Lemma erase_exit (s : state) (ev : event) :
  map erase (call_exit s ev) = Earlier.run_exit s ev.
Proof. unfold call_exit, Earlier.run_exit. now destruct (exitAction s). Qed.

Lemma erase_entry (s : state) (ev : event) :
  map erase (call_entry s ev) = Earlier.run_entry s ev.
Proof. unfold call_entry, Earlier.run_entry. now destruct (entryAction s). Qed.

Lemma erase_action (t : transition) (s : state) (ev : event) (new : word) :
  map erase (call_action t (data s) ev new) = Earlier.run_action t s ev.
Proof. unfold call_action, Earlier.run_action. now destruct (action t). Qed.

(** X20. The two revisions agree on plain transitions.  From a current
    state that is not the error state and holds the matching transition
    itself, when the next state is the current state (which declares no
    entry state), or is another state whose entry chain has at most one
    link and does not lead back to the current state, both revisions
    return the same code, land on the same state and invoke the same
    actions in the same order, the later one passing the new state's data
    to the transition action in addition. *)
Theorem revisions_agree (g : graph) (m : stateMachine) (ev : event)
  (c : addr) (t : transition) (n l : addr) :
  currentState m = Some c ->
  errorState m <> Some c ->
  getTransition (g c) ev = Some t ->
  nextState t = Some n ->
  (n = c /\ entryState (g c) = None /\ l = c)
  \/ (n <> c /\ l = Earlier.landing g n /\ entryState (g l) = None
      /\ l <> c) ->
  exists k, forall fuel, k <= fuel ->
    exists rv m1 m2 tr,
      stateM_handleEvent fuel g (Some m) (Some ev) = Some (rv, Some m1, tr)
      /\ Earlier.stateM_handleEvent fuel g (Some m) (Some ev)
         = Some (rv, Some m2, map erase tr)
      /\ currentState m1 = Some l
      /\ currentState m2 = Some l
      /\ errorState m1 = errorState m2.
Proof.
  intros Hc He Ht Hn Hcase.
  pose proof (getTransition_nonempty _ _ _ Ht) as Hz.
  assert (Hl : lands g n l).
  { destruct Hcase as [[-> [Hp ->]] | [_ [-> [Hp _]]]].
    - now apply lands_here.
    - unfold Earlier.landing in *.
      destruct (entryState (g n)) as [e|] eqn:Hen.
      + eapply lands_down; [exact Hen|]. now apply lands_here.
      + now apply lands_here. }
  destruct (handleEvent_commit g m ev c t n l Hc Hz
              (resolves_here _ _ _ _ Ht) Hn Hl) as [k1 H1].
  destruct (earlier_dispatch g m ev c c _ Hc He
              (resolves_at_here _ _ _ _ Ht)) as [k2 H2].
  exists (Nat.max k1 k2). intros fuel Hf.
  rewrite H1 by lia.
  rewrite (earlier_handleEvent_dispatch _ _ _ _ _ Hc), H2 by lia.
  unfold Earlier.leave. rewrite Hn.
  assert (Hne : ptr_eqb (currentState m) (errorState m) = false).
  { apply ptr_eqb_neq. congruence. }
  rewrite Hne, Hc. cbn [ptr_eqb negb].
  unfold classify, commit_calls.
  destruct Hcase as [[-> [Hp ->]] | [Hnc [El [Hp Hlc]]]].
  - rewrite Nat.eqb_refl. cbn [negb].
    exists stateM_stateLoopSelf, (moved m c c), m,
      ([] ++ call_action t (data (g c)) ev (data (g c)) ++ []).
    split; [reflexivity|]. split; [|auto].
    rewrite app_nil_r. cbn [app]. now rewrite erase_action.
  - apply Nat.eqb_neq in Hnc. apply Nat.eqb_neq in Hlc.
    rewrite Hnc, Hlc. cbn [negb].
    unfold Earlier.enter.
    clear H1 H2 Hl. subst l. unfold Earlier.landing in *.
    destruct (entryState (g n)) as [e|] eqn:Hen;
      cbn [currentState previousState errorState];
      do 4 eexists;
      (split; [reflexivity|]);
      (split;
       [rewrite !map_app, erase_exit, erase_action, erase_entry,
          <- app_assoc; reflexivity
       | cbn; auto]).
Qed.

(** The first step of the nested test: state 1 to state 3. *)
Lemma revisions_agree_witness :
  exists k, forall fuel, k <= fuel ->
    exists rv m1 m2 tr,
      stateM_handleEvent fuel NestedTest.states
        (Some (NestedTest.machine_at 1))
        (Some (NestedTest.key NestedTest.ch_d)) = Some (rv, Some m1, tr)
      /\ Earlier.stateM_handleEvent fuel NestedTest.states
           (Some (NestedTest.machine_at 1))
           (Some (NestedTest.key NestedTest.ch_d))
         = Some (rv, Some m2, map erase tr)
      /\ currentState m1 = Some 3
      /\ currentState m2 = Some 3
      /\ errorState m1 = errorState m2.
Proof.
  apply (revisions_agree NestedTest.states (NestedTest.machine_at 1)
           (NestedTest.key NestedTest.ch_d) 1
           (NestedTest.on NestedTest.ch_d 3) 3 3).
  - reflexivity.
  - discriminate.
  - reflexivity.
  - reflexivity.
  - right. split; [lia|]. split; [reflexivity|].
    split; [reflexivity | lia].
Defined.

(** ** The keyboard example on the earlier revision *)

Lemma keyboard_guard (k ch : Z) :
  Keyboard.compareKeyboardChar k (Keyboard.key ch) = (ch =? k)%Z.
Proof. unfold Keyboard.compareKeyboardChar. simpl. apply Z.eqb_sym. Qed.

Lemma keyboard_step (fuel : nat) (s : addr) (p : option addr) (ch : Z) :
  Keyboard.parsing s = true ->
  exists rv p' tr,
    Earlier.stateM_handleEvent (S (S fuel)) Keyboard.states
      (Some (mkStateMachine (Some s) p (Some Keyboard.errorState)))
      (Some (Keyboard.key ch)) =
    Some (rv,
          Some (mkStateMachine (Some (Keyboard.next s ch)) p'
                  (Some Keyboard.errorState)), tr)
    /\ (rv = stateM_stateChanged \/ rv = stateM_stateLoopSelf)
    /\ Keyboard.parsing (Keyboard.next s ch) = true.
Proof.
  intros Hs.
  do 6 (try (destruct s as [|s]; try discriminate Hs)).
  all: unfold Keyboard.next;
    cbn -[Z.eqb Keyboard.compareKeyboardChar]; rewrite !keyboard_guard.
  all: repeat match goal with
       | |- context [(?x =? ?k)%Z] => is_var x; destruct (Z.eqb_spec x k)
       end.
  all: try (exfalso;
            unfold Keyboard.ch_h, Keyboard.ch_a, Keyboard.ch_i,
              Keyboard.ch_newline, Keyboard.ch_bang in *;
            congruence).
  all: cbn; do 3 eexists; (split; [reflexivity|]); split; auto.
Qed.

Lemma keyboard_parsing_not_final (s : addr) :
  Keyboard.parsing s = true -> numTransitions (Keyboard.states s) <> 0.
Proof.
  intros Hs. do 6 (try (destruct s as [|s]; try discriminate Hs));
    cbn; lia.
Qed.

(** X21. The keyboard example follows its diagram on every input: fed
    with any sequence of characters, the machine of the example program
    is in the state the diagram gives, every call answers state-changed
    or looped-to-itself, and the machine neither stops nor enters its
    error state. *)
Theorem keyboard_follows_diagram (fuel : nat) (chs : list Z) :
  exists rvs m' tr,
    Earlier.feed (S (S fuel)) Keyboard.states Keyboard.fsm0
      (map Keyboard.key chs) = Some (rvs, Some m', tr)
    /\ currentState m'
       = Some (fold_left Keyboard.next chs Keyboard.idleState)
    /\ Keyboard.parsing (fold_left Keyboard.next chs Keyboard.idleState)
       = true
    /\ Forall (fun rv => rv = stateM_stateChanged
                         \/ rv = stateM_stateLoopSelf) rvs
    /\ stateM_stopped Keyboard.states (Some m') = Def false.
Proof.
  unfold Keyboard.fsm0. cbn [stateM_init fst].
  assert (Hgen : forall s p, Keyboard.parsing s = true ->
    exists rvs p' tr,
      Earlier.feed (S (S fuel)) Keyboard.states
        (Some (mkStateMachine (Some s) p (Some Keyboard.errorState)))
        (map Keyboard.key chs) =
      Some (rvs,
            Some (mkStateMachine (Some (fold_left Keyboard.next chs s)) p'
                    (Some Keyboard.errorState)), tr)
      /\ Keyboard.parsing (fold_left Keyboard.next chs s) = true
      /\ Forall (fun rv => rv = stateM_stateChanged
                           \/ rv = stateM_stateLoopSelf) rvs).
  { induction chs as [|ch chs IH]; intros s p Hs.
    - exists [], p, []. repeat split; auto.
    - destruct (keyboard_step fuel s p ch Hs) as [rv [p1 [tr1 [H1 [Hrv Hs1]]]]].
      destruct (IH (Keyboard.next s ch) p1 Hs1) as [rvs [p2 [tr2 [H2 [Hs2 Hall]]]]].
      exists (rv :: rvs), p2, (tr1 ++ tr2).
      cbn [map Earlier.feed fold_left]. rewrite H1, H2.
      repeat split; auto. }
  destruct (Hgen Keyboard.idleState None eq_refl)
    as [rvs [p' [tr [Hrun [Hs Hall]]]]].
  eexists rvs, _, tr. split; [exact Hrun|].
  split; [reflexivity|]. split; [exact Hs|]. split; [exact Hall|].
  cbn. apply keyboard_parsing_not_final in Hs.
  apply Nat.eqb_neq in Hs. now rewrite Hs.
Qed.

(** ** The oldest revision against the earlier one *)










(** The two differences on the boundary graph: the self-transition of
    state 4, and the transition from state 2 to state 3 when state 3 is
    the error state. *)
Example oldest_differs :
  (Earlier.stateM_handleEvent 2 Boundary.states
     (Some (mkStateMachine (Some 4) None (Some 0))) (Some Boundary.ev0)
   = Some (stateM_stateLoopSelf,
           Some (mkStateMachine (Some 4) None (Some 0)),
           [Earlier.Action 30 4%Z Boundary.ev0])
   /\ Oldest.stateM_handleEvent 2 Boundary.states
        (Some (mkStateMachine (Some 4) None (Some 0))) (Some Boundary.ev0)
      = Some (stateM_noStateChange,
              Some (mkStateMachine (Some 4) None (Some 0)),
              [Oldest.Action 30 Boundary.ev0]))
  /\ (Earlier.stateM_handleEvent 2 Boundary.states
        (Some Boundary.error_is_target) (Some Boundary.ev0)
      = Some (stateM_errorStateReached,
              Some (mkStateMachine (Some 3) (Some 2) (Some 3)),
              [Earlier.Exit 20 2%Z Boundary.ev0;
               Earlier.Action 30 2%Z Boundary.ev0;
               Earlier.Entry 10 3%Z Boundary.ev0])
      /\ Oldest.stateM_handleEvent 2 Boundary.states
           (Some Boundary.error_is_target) (Some Boundary.ev0)
         = Some (stateM_finalStateReached,
                 Some (mkStateMachine (Some 3) (Some 2) (Some 3)),
                 [Oldest.Exit 20 2%Z Boundary.ev0;
                  Oldest.Action 30 Boundary.ev0;
                  Oldest.Entry 10 3%Z Boundary.ev0])).
Proof. repeat split. Qed.

(** * A machine without error state *)

(** X23. A machine that has neither a current state nor an error state
    is trapped: the fallback has nowhere to go, so every event is
    answered with error-state-reached, no action is invoked, the machine
    never gets a current state, and [stateM_stopped] stays undefined. *)
Theorem absent_error_state_is_a_trap (g : graph) (m : stateMachine)
  (fuel : nat) (e : event) (evs : list event) :
  currentState m = None ->
  errorState m = None ->
  feed fuel g (Some m) (e :: evs) =
  Some (repeat stateM_errorStateReached (length (e :: evs)),
        Some (mkStateMachine None None None), [])
  /\ stateM_stopped g (Some (mkStateMachine None None None)) = Undef.
Proof.
  intros Hc He. split; [|reflexivity].
  assert (Htrap : forall l,
            feed fuel g (Some (mkStateMachine None None None)) l =
            Some (repeat stateM_errorStateReached (length l),
                  Some (mkStateMachine None None None), [])).
  { induction l as [|x l IH]; [reflexivity|].
    cbn [feed]. cbn [stateM_handleEvent currentState goToErrorState
                     errorState].
    rewrite IH. reflexivity. }
  cbn [feed]. unfold stateM_handleEvent, goToErrorState.
  rewrite Hc, He. rewrite Htrap. reflexivity.
Qed.

Lemma absent_error_state_is_a_trap_witness :
  feed 0 NestedTest.states
    (fst (stateM_init (Some (NestedTest.machine_at 1)) None None))
    [NestedTest.key NestedTest.ch_d; NestedTest.key NestedTest.ch_e] =
  Some ([stateM_errorStateReached; stateM_errorStateReached],
        Some (mkStateMachine None None None), [])
  /\ stateM_stopped NestedTest.states
       (Some (mkStateMachine None None None)) = Undef.
Proof.
  apply (absent_error_state_is_a_trap NestedTest.states
           (mkStateMachine None None None) 0
           (NestedTest.key NestedTest.ch_d)
           [NestedTest.key NestedTest.ch_e]);
    reflexivity.
Defined.
